(** * Tile-coverage screenshot analyser: black-area detection and
      game-view intrusion classification.

    Shallow embedding of [analyze_tile_coverage.py].  The decoded image is
    the [numpy] array of shape (height, width, 3) the script builds with
    [np.array(Image.open(path).convert('RGB'))]; standard output is a list of
    printed lines; [sys.exit] and uncaught exceptions are outcomes of a small
    writer/error monad.

    Floating point values are modelled by exact rationals extended with the
    IEEE specials the script can produce ([inf], [nan]) when the divisor of
    the percentage is zero. *)

From Stdlib Require Import ZArith QArith List Bool Lia String Ascii.
From Stdlib Require Import Permutation Sorted OrderedTypeEx.
Import ListNotations.

Local Open Scope Z_scope.

(* ================================================================== *)
(** ** The fragment of numpy the script uses *)

Module NumPy.

(** One RGB pixel: the last axis of the array. *)
Definition pixel : Type := (Z * Z * Z)%type.

(** An array of shape (shape0, shape1, 3), stored row by row.  [shape1] is
    kept apart from the rows because an array with no row still has a
    width. *)
Record ndarray : Type := mk_ndarray {
  shape1 : nat;
  rows   : list (list pixel)
}.

Definition shape0 (a : ndarray) : nat := List.length (rows a).

(** Every numpy array is rectangular. *)
Definition rectangular (a : ndarray) : Prop :=
  Forall (fun r => List.length r = shape1 a) (rows a).

Definition rectangularb (a : ndarray) : bool :=
  forallb (fun r => Nat.eqb (List.length r) (shape1 a)) (rows a).

(** [np.all(arr < t, axis=2)] at one pixel. *)
Definition all_lt (t : Z) (p : pixel) : bool :=
  let '(r, g, b) := p in (r <? t) && (g <? t) && (b <? t).

(** [np.all(arr < t, axis=2)]: the boolean mask, same rows and columns. *)
Definition all_lt_axis2 (t : Z) (a : ndarray) : list (list bool) :=
  map (map (all_lt t)) (rows a).

Definition count_true (l : list bool) : nat :=
  List.length (filter (fun b => b) l).

(** [np.sum(mask)] of a boolean mask: the number of [True] entries. *)
Definition sum (m : list (list bool)) : Z :=
  Z.of_nat (fold_right (fun r acc => (count_true r + acc)%nat) 0%nat m).

Fixpoint argwhere_row (r c : nat) (row : list bool) : list (nat * nat) :=
  match row with
  | [] => []
  | b :: t => (if b then [(r, c)] else []) ++ argwhere_row r (S c) t
  end.

Fixpoint argwhere_from (r : nat) (m : list (list bool)) : list (nat * nat) :=
  match m with
  | [] => []
  | row :: t => argwhere_row r 0 row ++ argwhere_from (S r) t
  end.

(** [np.argwhere(mask)]: the (row, column) index pairs of the [True]
    entries, in row-major order. *)
Definition argwhere (m : list (list bool)) : list (nat * nat) :=
  argwhere_from 0 m.

(** [coords.min(axis=0)] and [coords.max(axis=0)] of a non-empty array of
    index pairs, given as its first pair and the rest. *)
Definition min_axis0 (c0 : nat * nat) (cs : list (nat * nat)) : nat * nat :=
  fold_left (fun acc c => (Nat.min (fst acc) (fst c), Nat.min (snd acc) (snd c)))
            cs c0.

Definition max_axis0 (c0 : nat * nat) (cs : list (nat * nat)) : nat * nat :=
  fold_left (fun acc c => (Nat.max (fst acc) (fst c), Nat.max (snd acc) (snd c)))
            cs c0.

(** A float64 value: an exact rational or one of the IEEE specials. *)
Inductive float64 : Type :=
| Fin (q : Q)
| PInf
| NInf
| NaN.

(** [a / b] on integer scalars: true division, which on a zero divisor
    warns and yields [nan] or a signed infinity instead of raising. *)
Definition true_divide (a b : Z) : float64 :=
  if b =? 0 then
    if a =? 0 then NaN else if 0 <? a then PInf else NInf
  else Fin (inject_Z a / inject_Z b)%Q.

(** [x * k] for an integer constant [k]. *)
Definition mul_int (x : float64) (k : Z) : float64 :=
  match x with
  | Fin q => Fin (q * inject_Z k)%Q
  | PInf => if k =? 0 then NaN else if 0 <? k then PInf else NInf
  | NInf => if k =? 0 then NaN else if 0 <? k then NInf else PInf
  | NaN => NaN
  end.

(** [x < y] on floats; every comparison with [nan] is false. *)
Definition flt (x y : float64) : bool :=
  match x, y with
  | NaN, _ | _, NaN => false
  | _, NInf => false
  | NInf, _ => true
  | PInf, _ => false
  | Fin _, PInf => true
  | Fin p, Fin q => match (p ?= q)%Q with Lt => true | _ => false end
  end.

(** [x == y] on floats. *)
Definition feq (x y : float64) : bool :=
  match x, y with
  | Fin p, Fin q => Qeq_bool p q
  | PInf, PInf | NInf, NInf => true
  | _, _ => false
  end.

Definition is_nan (x : float64) : bool :=
  match x with NaN => true | _ => false end.

End NumPy.

Import NumPy.

(* ================================================================== *)
(** ** Dictionaries of the script, as records *)

(** [{'top': _, 'left': _, 'bottom': _, 'right': _}] *)
Record box : Type := mk_box {
  top    : Z;
  left   : Z;
  bottom : Z;
  right  : Z
}.

(** The dictionary [detect_black_areas] returns; ['black_region'] is present
    only in the first [return]. *)
Record black_result : Type := mk_black_result {
  has_black    : bool;
  percentage   : float64;
  black_pixels : Z;
  total_pixels : Z;
  black_region : option box
}.

(** [{'header': _, 'sidebar': _}] *)
Record ui_regions_t : Type := mk_ui_regions {
  header  : box;
  sidebar : box
}.

(* ================================================================== *)
(** ** [detect_black_areas] on the decoded array *)

Definition default_black_threshold : Z := 10.

Definition detect_black_areas_array (img_array : ndarray) (black_threshold : Z)
  : black_result :=
  let black_mask := all_lt_axis2 black_threshold img_array in
  let total_pixels := Z.of_nat (shape0 img_array) * Z.of_nat (shape1 img_array) in
  let black_pixels := NumPy.sum black_mask in
  let black_percentage := mul_int (true_divide black_pixels total_pixels) 100 in
  let no_black :=
    {| has_black := false;
       percentage := black_percentage;
       black_pixels := black_pixels;
       total_pixels := total_pixels;
       black_region := None |} in
  if 0 <? black_pixels then
    match argwhere black_mask with
    | c0 :: cs => (* [len(black_coords) > 0] *)
        let top_left := min_axis0 c0 cs in
        let bottom_right := max_axis0 c0 cs in
        {| has_black := true;
           percentage := black_percentage;
           black_pixels := black_pixels;
           total_pixels := total_pixels;
           black_region :=
             Some {| top := Z.of_nat (fst top_left);
                     left := Z.of_nat (snd top_left);
                     bottom := Z.of_nat (fst bottom_right);
                     right := Z.of_nat (snd bottom_right) |} |}
    | [] => no_black
    end
  else no_black.

(* ================================================================== *)
(** ** [analyze_ui_regions] and the intrusion test of [main] *)

(** [analyze_ui_regions] once the image is open: [img.size] is
    [(width, height)]. *)
Definition analyze_ui_regions_size (width height : Z) : ui_regions_t * (Z * Z) :=
  let ui_regions :=
    {| header  := {| top := 0;  bottom := 60;     left := 0; right := width |};
       sidebar := {| top := 60; bottom := height; left := 0; right := 200 |} |} in
  (ui_regions, (width, height)).

(** The value of [game_area_black] after the two nested [if]s of [main]. *)
Definition game_area_black (black_region : box) (ui_regions : ui_regions_t) : bool :=
  if bottom (header ui_regions) <? bottom black_region then
    if right (sidebar ui_regions) <? right black_region then true
    else false
  else false.

(* ================================================================== *)
(** ** The Python builtins the script uses *)

Module Py.

Local Open Scope string_scope.

(** [s.endswith(suf)] *)
Definition endswith (s suf : string) : bool :=
  let n := String.length s in
  let k := String.length suf in
  (k <=? n)%nat && String.eqb (substring (n - k) k s) suf.

(** [c.lower()] on one character: [A]..[Z] go to [a]..[z]. *)
Definition ascii_lower (c : ascii) : ascii :=
  let n := nat_of_ascii c in
  if ((65 <=? n) && (n <=? 90))%nat then ascii_of_nat (n + 32) else c.

(** [s.lower()] *)
Fixpoint lower (s : string) : string :=
  match s with
  | EmptyString => EmptyString
  | String c t => String (ascii_lower c) (lower t)
  end.

(** [sub in s] *)
Fixpoint str_in (sub s : string) : bool :=
  prefix sub s ||
  match s with
  | EmptyString => false
  | String _ t => str_in sub t
  end.

(** [os.path.join(a, b)] for a relative [b]. *)
Definition path_join (a b : string) : string := a ++ "/" ++ b.

Section Sort.
Context {A K : Type} (key : A -> K) (lt : K -> K -> bool).

(** Stable insertion keeping [x] ahead of the elements it does not
    exceed. *)
Fixpoint insert_asc (x : A) (l : list A) : list A :=
  match l with
  | [] => [x]
  | y :: t => if lt (key y) (key x) then y :: insert_asc x t else x :: y :: t
  end.

(** [sorted(l, key=key)]: ascending and stable, comparing keys with
    [<] only. *)
Definition sorted (l : list A) : list A := fold_right insert_asc [] l.

Fixpoint insert_desc (x : A) (l : list A) : list A :=
  match l with
  | [] => [x]
  | y :: t => if lt (key x) (key y) then y :: insert_desc x t else x :: y :: t
  end.

(** [l.sort(key=key, reverse=True)]: descending, and still stable
    (elements with equal keys keep their original order). *)
Definition sort_reverse (l : list A) : list A := fold_right insert_desc [] l.
End Sort.

(** [sorted] on a list of [str]. *)
Definition sorted_str (l : list string) : list string :=
  sorted (fun s => s) String.ltb l.

End Py.

(* ================================================================== *)
(** ** Printing, [sys.exit] and exceptions *)

(** An issue dictionary appended to [issues_found]. *)
Record issue : Type := mk_issue {
  file             : string;
  black_percentage : float64;
  region           : box;
  severity         : string
}.

(** The lines [main] and the script print; formatted numbers are kept as
    values. *)
Inductive line : Type :=
| L_packages_missing
| L_pip_install
| L_dir_not_found (dir : string)
| L_run_cargo
| L_no_screenshots
| L_analyzing_count (n : nat)
| L_analyzing (screenshot : string)
| L_black_detected (pct : float64)
| L_black_in_game_view (b : box)
| L_black_in_ui_only
| L_no_significant_black (pct : float64)
| L_rule
| L_summary
| L_issues_found (n : nat)
| L_most_problematic
| L_ranked (rank : nat) (f : string) (pct : float64)
| L_ranked_region (b : box)
| L_missing_coverage
| L_culling_advice_1
| L_culling_advice_2
| L_edge_issues (n : nat)
| L_zoom_issues (n : nat)
| L_success
| L_coverage_ok.

Inductive exn : Type :=
| CannotOpenImage (path : string)
| KeyError (k : string).

Inductive outcome (A : Type) : Type :=
| Return (a : A)
| SystemExit (code : Z)
| Raise (e : exn).

Arguments Return {A} a.
Arguments SystemExit {A} code.
Arguments Raise {A} e.

(** A computation: the lines it printed and how it ended. *)
Definition IO (A : Type) : Type := (list line * outcome A)%type.

Definition ret {A} (a : A) : IO A := ([], Return a).

Definition bind {A B} (m : IO A) (k : A -> IO B) : IO B :=
  match m with
  | (out, Return a) => let (out', r) := k a in (out ++ out', r)
  | (out, SystemExit c) => (out, SystemExit c)
  | (out, Raise e) => (out, Raise e)
  end.

Definition print (l : line) : IO unit := ([l], Return tt).
Definition sys_exit {A} (code : Z) : IO A := ([], SystemExit code).
Definition raise {A} (e : exn) : IO A := ([], Raise e).

Declare Scope io_scope.
Delimit Scope io_scope with io.
Notation "x <- m ;; k" := (bind m (fun x => k))
  (at level 61, m at next level, right associativity) : io_scope.
Notation "m ;; k" := (bind m (fun _ => k))
  (at level 61, right associativity) : io_scope.

(** [for x in l: s = body(s, x)] *)
Fixpoint for_each {A S} (l : list A) (s : S) (body : S -> A -> IO S) : IO S :=
  match l with
  | [] => ret s
  | x :: t => bind (body s x) (fun s' => for_each t s' body)
  end.

Definition stdout {A} (m : IO A) : list line := fst m.
Definition result {A} (m : IO A) : outcome A := snd m.

(* ================================================================== *)
(** ** What the script reads *)

Record world : Type := mk_world {
  (** [import PIL] and [import numpy] both succeed *)
  packages_installed : bool;
  (** [os.listdir(screenshot_dir)], or [None] when the directory does not
      exist.  A path that exists and cannot be listed, on which
      [os.listdir] raises, is not among the worlds. *)
  listdir : option (list string);
  (** [np.array(Image.open(path).convert('RGB'))], or [None] when
      [Image.open] raises *)
  open_image : string -> option ndarray
}.

Definition screenshot_dir : string := "tile_coverage_test".

Local Open Scope io_scope.

Definition detect_black_areas (w : world) (image_path : string) (black_threshold : Z)
  : IO black_result :=
  match open_image w image_path with
  | None => raise (CannotOpenImage image_path)
  | Some img_array => ret (detect_black_areas_array img_array black_threshold)
  end.

Definition analyze_ui_regions (w : world) (image_path : string)
  : IO (ui_regions_t * (Z * Z)) :=
  match open_image w image_path with
  | None => raise (CannotOpenImage image_path)
  | Some img =>
      ret (analyze_ui_regions_size (Z.of_nat (shape1 img)) (Z.of_nat (shape0 img)))
  end.

(** The body of the [for screenshot in screenshots] loop of [main];
    [issues_found] is threaded through. *)
Definition analyze_screenshot (w : world) (issues_found : list issue)
  (screenshot : string) : IO (list issue) :=
  let filepath := Py.path_join screenshot_dir screenshot in
  print (L_analyzing screenshot) ;;
  result <- detect_black_areas w filepath default_black_threshold ;;
  regions <- analyze_ui_regions w filepath ;;
  let ui_regions := fst regions in
  if has_black result then
    print (L_black_detected (percentage result)) ;;
    match black_region result with
    | None => raise (KeyError "black_region")
    | Some black_region =>
        if game_area_black black_region ui_regions then
          print (L_black_in_game_view black_region) ;;
          ret (issues_found ++
               [{| file := screenshot;
                   black_percentage := percentage result;
                   region := black_region;
                   severity := "HIGH" |}])
        else
          print L_black_in_ui_only ;;
          ret issues_found
    end
  else
    print (L_no_significant_black (percentage result)) ;;
    ret issues_found.

(** [issues_found.sort(key=lambda x: x['black_percentage'], reverse=True)] *)
Definition sort_issues (issues_found : list issue) : list issue :=
  Py.sort_reverse black_percentage flt issues_found.

Definition edge_issues (issues_found : list issue) : list issue :=
  filter (fun i => Py.str_in "edge" (Py.lower (file i))) issues_found.

Definition zoom_issues (issues_found : list issue) : list issue :=
  filter (fun i => Py.str_in "zoom" (Py.lower (file i))) issues_found.

(** [for i, issue in enumerate(issues_found[:5])] *)
Fixpoint print_ranked (i : nat) (issues : list issue) : IO unit :=
  match issues with
  | [] => ret tt
  | issue :: t =>
      print (L_ranked (i + 1) (file issue) (black_percentage issue)) ;;
      print (L_ranked_region (region issue)) ;;
      print_ranked (S i) t
  end.

Definition is_empty {A} (l : list A) : bool :=
  match l with [] => true | _ => false end.

(** The [screenshots] list of [main]. *)
Definition screenshots_of (names : list string) : list string :=
  Py.sorted_str (filter (fun f => Py.endswith f ".png") names).

(** [main] up to its [return]: yields the final value of [issues_found]. *)
Definition main_issues_found (w : world) : IO (list issue) :=
  match listdir w with
  | None =>
      print (L_dir_not_found screenshot_dir) ;;
      print L_run_cargo ;;
      sys_exit 1
  | Some names =>
      let screenshots := screenshots_of names in
      if is_empty screenshots then
        print L_no_screenshots ;;
        sys_exit 1
      else
        print (L_analyzing_count (List.length screenshots)) ;;
        issues_found <- for_each screenshots [] (analyze_screenshot w) ;;
        print L_rule ;; print L_summary ;; print L_rule ;;
        if negb (is_empty issues_found) then
          print (L_issues_found (List.length issues_found)) ;;
          let issues_found := sort_issues issues_found in
          print L_most_problematic ;;
          print_ranked 0 (firstn 5 issues_found) ;;
          print L_missing_coverage ;;
          print L_culling_advice_1 ;;
          print L_culling_advice_2 ;;
          let edge_issues := edge_issues issues_found in
          let zoom_issues := zoom_issues issues_found in
          (if negb (is_empty edge_issues)
           then print (L_edge_issues (List.length edge_issues)) else ret tt) ;;
          (if negb (is_empty zoom_issues)
           then print (L_zoom_issues (List.length zoom_issues)) else ret tt) ;;
          ret issues_found
        else
          print L_success ;;
          print L_coverage_ok ;;
          ret issues_found
  end.

(** [main]: [return len(issues_found) == 0]. *)
Definition main (w : world) : IO bool :=
  issues_found <- main_issues_found w ;;
  ret (Nat.eqb (List.length issues_found) 0).

(** The script as a whole: printed lines and the exit status of the
    process.  An uncaught exception ends the interpreter with status 1.
    With a package missing that exception is the [ImportError] of the
    imports at the top of the module, raised before anything is printed:
    the check of the [if __name__ == "__main__"] block is then never
    reached. *)
Definition script (w : world) : list line * Z :=
  if negb (packages_installed w) then
    ([], 1)
  else
    match main w with
    | (out, Return success) => (out, if success then 0 else 1)
    | (out, SystemExit code) => (out, code)
    | (out, Raise _) => (out, 1)
    end.

Definition exit_status (w : world) : Z := snd (script w).

(** The screenshots whose analysis was started, in order, read off the
    printed lines. *)
Definition analyzed (out : list line) : list string :=
  flat_map (fun l => match l with L_analyzing f => [f] | _ => [] end) out.

(* ================================================================== *)
(** ** Vocabulary of the specification *)

(** The pixel at row [i], column [j], when inside the array. *)
Definition pixel_at (img : ndarray) (i j : nat) : option pixel :=
  match nth_error (rows img) i with
  | Some row => nth_error row j
  | None => None
  end.

(** Row [i], column [j] holds a pixel whose three channels are all below
    the threshold. *)
Definition is_black_at (img : ndarray) (t : Z) (i j : nat) : bool :=
  match pixel_at img i j with
  | Some (r, g, b) => (r <? t) && (g <? t) && (b <? t)
  | None => false
  end.

(** [x <= y] on floats. *)
Definition fle (x y : float64) : bool := flt x y || feq x y.

(** [f] has a substring that is [sub] up to letter case. *)
Definition contains_nocase (f sub : string) : Prop :=
  exists pre mid post,
    f = (pre ++ mid ++ post)%string /\ Py.lower mid = sub.

(** [l1] is [l2] with some elements left out, order kept. *)
Inductive subseq {A : Type} : list A -> list A -> Prop :=
| subseq_nil : subseq [] []
| subseq_skip : forall x l1 l2, subseq l1 l2 -> subseq l1 (x :: l2)
| subseq_take : forall x l1 l2, subseq l1 l2 -> subseq (x :: l1) (x :: l2).

(** The images a run can load are arrays with at least one row and one
    column. *)
Definition loaded_image (img : ndarray) : Prop :=
  rectangular img /\ (1 <= shape0 img)%nat /\ (1 <= shape1 img)%nat.

(** The verdict of a completed run. *)
Inductive verdict : Type := Pass | Fail.

Definition verdict_of (success : bool) : verdict :=
  if success then Pass else Fail.

(** The lines the scan prints about one screenshot after naming it. *)
Definition is_status_line (l : line) : bool :=
  match l with
  | L_black_detected _ | L_black_in_game_view _ | L_black_in_ui_only
  | L_no_significant_black _ => true
  | _ => false
  end.

(** The lines of the summary that are neither a pattern count nor the name
    of a screenshot under analysis. *)
Definition is_plain_summary_line (l : line) : bool :=
  match l with
  | L_edge_issues _ | L_zoom_issues _ | L_analyzing _ => false
  | _ => true
  end.

(** The pattern counts a run reported, in order. *)
Definition pattern_report (out : list line) : list line :=
  filter (fun l => match l with
                   | L_edge_issues _ | L_zoom_issues _ => true
                   | _ => false
                   end) out.

(** What one pass of the loop appends to [issues_found] for a screenshot:
    nothing unless the image opens and its black box is flagged. *)
Definition recorded (w : world) (screenshot : string) : list issue :=
  match open_image w (Py.path_join screenshot_dir screenshot) with
  | Some img =>
      let r := detect_black_areas_array img default_black_threshold in
      match black_region r with
      | Some b =>
          if game_area_black b
               (fst (analyze_ui_regions_size (Z.of_nat (shape1 img))
                                             (Z.of_nat (shape0 img))))
          then [{| file := screenshot;
                   black_percentage := percentage r;
                   region := b;
                   severity := "HIGH" |}]
          else []
      | None => []
      end
  | None => []
  end.

(** The image of a screenshot can be opened. *)
Definition opens (w : world) (screenshot : string) : Prop :=
  open_image w (Py.path_join screenshot_dir screenshot) <> None.

(** The lines of the scan: the name of a screenshot or its status. *)
Definition is_scan_line (l : line) : bool :=
  match l with
  | L_analyzing _ => true
  | _ => is_status_line l
  end.

(** The ranking lines of the summary, in order. *)
Definition ranked_report (out : list line) : list line :=
  filter (fun l => match l with L_ranked _ _ _ => true | _ => false end) out.

(** The lines that announce the verdict. *)
Definition verdict_report (out : list line) : list line :=
  filter (fun l => match l with
                   | L_success | L_issues_found _ => true
                   | _ => false
                   end) out.



(* ================================================================== *)
(** ** Scenarios *)

Module Scenario.

Definition black_px : pixel := (0, 0, 0).
Definition white_px : pixel := (255, 255, 255).

(** An image of one colour. *)
Definition solid (height width : nat) (p : pixel) : ndarray :=
  {| shape1 := width; rows := repeat (repeat p width) height |}.

(** A white image whose last row is black. *)
Definition black_last_row (height width : nat) : ndarray :=
  {| shape1 := width;
     rows := repeat (repeat white_px width) (height - 1)
             ++ [repeat black_px width] |}.

Definition names : list string :=
  ["zoom_out_edge.png"; "notes.txt"; "edge_north.png"; "center.png";
   "Zoom_low.png"]%string.

(** Four screenshots of 202 x 62 pixels: two all black, one white, one with
    a black last row. *)
Definition tiles : world :=
  {| packages_installed := true;
     listdir := Some names;
     open_image := fun path =>
       if String.eqb path "tile_coverage_test/center.png"
       then Some (solid 62 202 white_px)
       else if String.eqb path "tile_coverage_test/Zoom_low.png"
       then Some (black_last_row 62 202)
       else if String.eqb path "tile_coverage_test/edge_north.png"
       then Some (solid 62 202 black_px)
       else if String.eqb path "tile_coverage_test/zoom_out_edge.png"
       then Some (solid 62 202 black_px)
       else None |}.

(** A directory without any screenshot. *)
Definition no_png : world :=
  {| packages_installed := true;
     listdir := Some ["notes.txt"; "png"]%string;
     open_image := fun _ => None |}.

(** A directory whose only screenshot is white. *)
Definition clean : world :=
  {| packages_installed := true;
     listdir := Some ["center.png"]%string;
     open_image := fun _ => Some (solid 62 202 white_px) |}.

End Scenario.

(* ================================================================== *)
(** ** Region classifier *)

Section RegionClassifier.
Variables (width height : Z).

Let ui := fst (analyze_ui_regions_size width height).

Lemma header_bottom_const : bottom (header ui) = 60.
Proof. reflexivity. Qed.

Lemma sidebar_right_const : right (sidebar ui) = 200.
Proof. reflexivity. Qed.

Lemma game_area_black_spec (b : box) :
  game_area_black b ui = (60 <? bottom b) && (200 <? right b).
Proof.
  unfold game_area_black.
  rewrite header_bottom_const, sidebar_right_const.
  destruct (60 <? bottom b), (200 <? right b); reflexivity.
Qed.
End RegionClassifier.

(** C1: with header = {top 0, bottom 60, left 0, right w} and sidebar =
    {top 60, bottom h, left 0, right 200}, a black box is classified as a
    game-view intrusion exactly when its bottom is strictly greater than 60
    and its right strictly greater than 200; it is not flagged exactly when
    one of the two fails. *)
Theorem C1_intrusion_iff_beyond_header_and_sidebar (b : box) (w h : Z) :
  let ui := fst (analyze_ui_regions_size w h) in
  header ui = {| top := 0; bottom := 60; left := 0; right := w |} /\
  sidebar ui = {| top := 60; bottom := h; left := 0; right := 200 |} /\
  (game_area_black b ui = true <->
     bottom b > bottom (header ui) /\ right b > right (sidebar ui)) /\
  (game_area_black b ui = true <-> bottom b > 60 /\ right b > 200) /\
  (game_area_black b ui = false <-> bottom b <= 60 \/ right b <= 200).
Proof.
  cbv zeta.
  rewrite game_area_black_spec.
  repeat split; try reflexivity; simpl;
    destruct (Z.ltb_spec 60 (bottom b)), (Z.ltb_spec 200 (right b));
    simpl; intros; try lia; try discriminate; try tauto.
Qed.

(** C8: for fixed image dimensions, a box classified as non-intruding,
    once enlarged so that its bottom exceeds 60 and its right exceeds 200,
    is classified as an intrusion. *)
Theorem C8_enlarging_flips_to_intrusion (b b' : box) (w h : Z) :
  game_area_black b (fst (analyze_ui_regions_size w h)) = false ->
  top b' <= top b -> left b' <= left b ->
  bottom b <= bottom b' -> right b <= right b' ->
  60 < bottom b' -> 200 < right b' ->
  game_area_black b' (fst (analyze_ui_regions_size w h)) = true.
Proof.
  intros _ _ _ _ _ Hb Hr.
  rewrite game_area_black_spec.
  apply andb_true_intro; split; apply Z.ltb_lt; assumption.
Qed.

Lemma C8_enlarging_flips_to_intrusion_witness :
  game_area_black {| top := 0; left := 0; bottom := 50; right := 799 |}
                  (fst (analyze_ui_regions_size 800 600)) = false /\
  game_area_black {| top := 0; left := 0; bottom := 599; right := 799 |}
                  (fst (analyze_ui_regions_size 800 600)) = true.
Proof.
  split; [reflexivity |].
  apply (C8_enlarging_flips_to_intrusion
           {| top := 0; left := 0; bottom := 50; right := 799 |}
           {| top := 0; left := 0; bottom := 599; right := 799 |} 800 600);
    simpl; try reflexivity; lia.
Defined.

(** C10: the classification depends only on the bottom and right of the
    black box: two boxes with the same bottom and right get the same
    result whatever their top and left, and whatever the width and height
    of the two images. *)
Theorem C10_only_bottom_and_right_matter (b1 b2 : box) (w1 h1 w2 h2 : Z) :
  0 < w1 -> 0 < h1 -> 0 < w2 -> 0 < h2 ->
  bottom b1 = bottom b2 -> right b1 = right b2 ->
  game_area_black b1 (fst (analyze_ui_regions_size w1 h1)) =
  game_area_black b2 (fst (analyze_ui_regions_size w2 h2)).
Proof.
  intros _ _ _ _ Hb Hr.
  rewrite !game_area_black_spec.
  congruence.
Qed.

Lemma C10_only_bottom_and_right_matter_witness :
  game_area_black {| top := 0; left := 0; bottom := 599; right := 799 |}
                  (fst (analyze_ui_regions_size 800 600)) =
  game_area_black {| top := 70; left := 300; bottom := 599; right := 799 |}
                  (fst (analyze_ui_regions_size 1024 768)).
Proof.
  apply C10_only_bottom_and_right_matter; simpl; try reflexivity; lia.
Defined.

(* ================================================================== *)
(** ** Pixel classifier: the mask, its count and its index pairs *)

Lemma all_lt_spec (t r g b : Z) :
  all_lt t (r, g, b) = true <-> r < t /\ g < t /\ b < t.
Proof.
  unfold all_lt. rewrite !andb_true_iff, !Z.ltb_lt. tauto.
Qed.

Lemma is_black_at_all_lt (img : ndarray) (t : Z) (i j : nat) :
  is_black_at img t i j =
  match pixel_at img i j with Some p => all_lt t p | None => false end.
Proof.
  unfold is_black_at. destruct (pixel_at img i j) as [[[r g] b]|]; reflexivity.
Qed.

Lemma length_argwhere_row (r c : nat) (row : list bool) :
  List.length (argwhere_row r c row) = count_true row.
Proof.
  revert c. induction row as [|b row IH]; intros c; simpl; [reflexivity|].
  rewrite length_app, IH. unfold count_true. simpl.
  destruct b; reflexivity.
Qed.

Lemma length_argwhere_from (r : nat) (m : list (list bool)) :
  Z.of_nat (List.length (argwhere_from r m)) = NumPy.sum m.
Proof.
  unfold NumPy.sum. f_equal. revert r.
  induction m as [|row m IH]; intros r; simpl; [reflexivity|].
  now rewrite length_app, length_argwhere_row, IH.
Qed.

Lemma In_argwhere_row (r c : nat) (row : list bool) (i j : nat) :
  In (i, j) (argwhere_row r c row) <->
  i = r /\ (c <= j)%nat /\ nth_error row (j - c) = Some true.
Proof.
  revert c. induction row as [|b row IH]; intros c; simpl.
  - split; [tauto|]. intros (_ & _ & H). destruct (j - c)%nat; discriminate.
  - rewrite in_app_iff, IH. split.
    + intros [H|(-> & Hc & Hn)].
      * destruct b; simpl in H; [|tauto].
        destruct H as [H|[]]. inversion H; subst.
        rewrite Nat.sub_diag. auto.
      * repeat split; [lia|].
        replace (j - c)%nat with (S (j - S c)) by lia. exact Hn.
    + intros (-> & Hc & Hn).
      destruct (Nat.eq_dec j c) as [->|Hne].
      * rewrite Nat.sub_diag in Hn. simpl in Hn. inversion Hn; subst.
        left. simpl. auto.
      * right. repeat split; [lia|].
        replace (j - c)%nat with (S (j - S c)) in Hn by lia. exact Hn.
Qed.

Lemma In_argwhere_from (r : nat) (m : list (list bool)) (i j : nat) :
  In (i, j) (argwhere_from r m) <->
  (r <= i)%nat /\
  exists row, nth_error m (i - r) = Some row /\ nth_error row j = Some true.
Proof.
  revert r. induction m as [|row m IH]; intros r; simpl.
  - split; [tauto|]. intros (_ & row & H & _).
    destruct (i - r)%nat; discriminate.
  - rewrite in_app_iff, In_argwhere_row, IH, Nat.sub_0_r. split.
    + intros [(-> & _ & Hn)|(Hr & row' & Hm & Hn)].
      * split; [lia|]. exists row. rewrite Nat.sub_diag. auto.
      * split; [lia|]. exists row'.
        replace (i - r)%nat with (S (i - S r)) by lia. auto.
    + intros (Hr & row' & Hm & Hn).
      destruct (Nat.eq_dec i r) as [->|Hne].
      * rewrite Nat.sub_diag in Hm. simpl in Hm. inversion Hm; subst.
        left. repeat split; [lia|assumption].
      * right. split; [lia|]. exists row'.
        replace (i - r)%nat with (S (i - S r)) in Hm by lia. auto.
Qed.

Lemma NoDup_argwhere_row (r c : nat) (row : list bool) :
  NoDup (argwhere_row r c row).
Proof.
  revert c. induction row as [|b row IH]; intros c; simpl; [constructor|].
  destruct b; simpl; [|apply IH].
  constructor; [|apply IH].
  rewrite In_argwhere_row. lia.
Qed.

Lemma NoDup_argwhere_from (r : nat) (m : list (list bool)) :
  NoDup (argwhere_from r m).
Proof.
  revert r. induction m as [|row m IH]; intros r; simpl; [constructor|].
  apply NoDup_app; [apply NoDup_argwhere_row | apply IH |].
  intros [i j]. rewrite In_argwhere_row, In_argwhere_from. lia.
Qed.

(** The index pairs [np.argwhere] lists are the black pixels. *)
Lemma In_argwhere_mask (img : ndarray) (t : Z) (i j : nat) :
  In (i, j) (argwhere (all_lt_axis2 t img)) <-> is_black_at img t i j = true.
Proof.
  unfold argwhere, all_lt_axis2.
  rewrite In_argwhere_from, Nat.sub_0_r, is_black_at_all_lt.
  unfold pixel_at. rewrite nth_error_map.
  destruct (nth_error (rows img) i) as [row|]; simpl.
  - split.
    + intros (_ & row' & Hr & Hn). inversion Hr; subst.
      rewrite nth_error_map in Hn.
      destruct (nth_error row j); simpl in Hn; congruence.
    + intros H. split; [lia|]. eexists; split; [reflexivity|].
      rewrite nth_error_map.
      destruct (nth_error row j); simpl; congruence.
  - split; [intros (_ & row' & Hr & _); discriminate | discriminate].
Qed.

Lemma sum_mask_length (img : ndarray) (t : Z) :
  NumPy.sum (all_lt_axis2 t img) =
  Z.of_nat (List.length (argwhere (all_lt_axis2 t img))).
Proof. unfold argwhere. now rewrite length_argwhere_from. Qed.

(** The count never exceeds the number of pixels of a rectangular array. *)
Lemma sum_mask_le_total (img : ndarray) (t : Z) :
  rectangular img ->
  NumPy.sum (all_lt_axis2 t img) <=
  Z.of_nat (shape0 img) * Z.of_nat (shape1 img).
Proof.
  unfold rectangular, shape0, NumPy.sum, all_lt_axis2.
  generalize (shape1 img) as w. intros w.
  induction (rows img) as [|row m IH]; intros Hrect; simpl List.length.
  - simpl. lia.
  - inversion Hrect as [|? ? Hrow Hm]; subst. specialize (IH Hm).
    simpl fold_right.
    assert (Hc : (count_true (map (all_lt t) row) <= List.length row)%nat).
    { unfold count_true.
      etransitivity; [apply filter_length_le|]. now rewrite length_map. }
    lia.
Qed.

(** [min(axis=0)] and [max(axis=0)] bound every pair and are attained. *)
Section Extremes.
Variables (c0 : nat * nat) (cs : list (nat * nat)).

Lemma min_axis0_le (c : nat * nat) :
  In c (c0 :: cs) ->
  (fst (min_axis0 c0 cs) <= fst c)%nat /\ (snd (min_axis0 c0 cs) <= snd c)%nat.
Proof.
  unfold min_axis0. revert c0 c.
  induction cs as [|d ds IH]; intros a c Hin; simpl in *.
  - destruct Hin as [->|[]]. lia.
  - assert (Hacc : forall b ds',
              (fst (fold_left (fun acc c => (Nat.min (fst acc) (fst c),
                                             Nat.min (snd acc) (snd c))) ds' b)
               <= fst b)%nat /\
              (snd (fold_left (fun acc c => (Nat.min (fst acc) (fst c),
                                             Nat.min (snd acc) (snd c))) ds' b)
               <= snd b)%nat).
    { intros b ds'; revert b.
      induction ds' as [|e es IHe]; intros b; simpl; [lia|].
      specialize (IHe (Nat.min (fst b) (fst e), Nat.min (snd b) (snd e))).
      simpl in IHe. lia. }
    destruct Hin as [->|[->|Hin]].
    + specialize (Hacc (Nat.min (fst c) (fst d), Nat.min (snd c) (snd d)) ds).
      simpl in Hacc. lia.
    + specialize (Hacc (Nat.min (fst a) (fst c), Nat.min (snd a) (snd c)) ds).
      simpl in Hacc. lia.
    + apply IH. right. exact Hin.
Qed.

Lemma max_axis0_ge (c : nat * nat) :
  In c (c0 :: cs) ->
  (fst c <= fst (max_axis0 c0 cs))%nat /\ (snd c <= snd (max_axis0 c0 cs))%nat.
Proof.
  unfold max_axis0. revert c0 c.
  induction cs as [|d ds IH]; intros a c Hin; simpl in *.
  - destruct Hin as [->|[]]. lia.
  - assert (Hacc : forall b ds',
              (fst b <=
               fst (fold_left (fun acc c => (Nat.max (fst acc) (fst c),
                                             Nat.max (snd acc) (snd c))) ds' b))%nat /\
              (snd b <=
               snd (fold_left (fun acc c => (Nat.max (fst acc) (fst c),
                                             Nat.max (snd acc) (snd c))) ds' b))%nat).
    { intros b ds'; revert b.
      induction ds' as [|e es IHe]; intros b; simpl; [lia|].
      specialize (IHe (Nat.max (fst b) (fst e), Nat.max (snd b) (snd e))).
      simpl in IHe. lia. }
    destruct Hin as [->|[->|Hin]].
    + specialize (Hacc (Nat.max (fst c) (fst d), Nat.max (snd c) (snd d)) ds).
      simpl in Hacc. lia.
    + specialize (Hacc (Nat.max (fst a) (fst c), Nat.max (snd a) (snd c)) ds).
      simpl in Hacc. lia.
    + apply IH. right. exact Hin.
Qed.

Lemma min_axis0_attained :
  (exists c, In c (c0 :: cs) /\ fst c = fst (min_axis0 c0 cs)) /\
  (exists c, In c (c0 :: cs) /\ snd c = snd (min_axis0 c0 cs)).
Proof.
  unfold min_axis0. revert c0.
  induction cs as [|d ds IH]; intros a; simpl.
  - split; exists a; auto.
  - destruct (IH (Nat.min (fst a) (fst d), Nat.min (snd a) (snd d)))
      as [(c1 & H1 & F1) (c2 & H2 & F2)].
    simpl in H1, H2. split.
    + destruct H1 as [E1|H1]; [|exists c1; auto].
      subst c1. simpl in F1.
      destruct (Nat.min_dec (fst a) (fst d)) as [E|E];
        [exists a | exists d]; (split; [auto | now rewrite <- F1]).
    + destruct H2 as [E2|H2]; [|exists c2; auto].
      subst c2. simpl in F2.
      destruct (Nat.min_dec (snd a) (snd d)) as [E|E];
        [exists a | exists d]; (split; [auto | now rewrite <- F2]).
Qed.

Lemma max_axis0_attained :
  (exists c, In c (c0 :: cs) /\ fst c = fst (max_axis0 c0 cs)) /\
  (exists c, In c (c0 :: cs) /\ snd c = snd (max_axis0 c0 cs)).
Proof.
  unfold max_axis0. revert c0.
  induction cs as [|d ds IH]; intros a; simpl.
  - split; exists a; auto.
  - destruct (IH (Nat.max (fst a) (fst d), Nat.max (snd a) (snd d)))
      as [(c1 & H1 & F1) (c2 & H2 & F2)].
    simpl in H1, H2. split.
    + destruct H1 as [E1|H1]; [|exists c1; auto].
      subst c1. simpl in F1.
      destruct (Nat.max_dec (fst a) (fst d)) as [E|E];
        [exists a | exists d]; (split; [auto | now rewrite <- F1]).
    + destruct H2 as [E2|H2]; [|exists c2; auto].
      subst c2. simpl in F2.
      destruct (Nat.max_dec (snd a) (snd d)) as [E|E];
        [exists a | exists d]; (split; [auto | now rewrite <- F2]).
Qed.
End Extremes.

(** The two ways [detect_black_areas] returns, by the index pairs found. *)
Lemma detect_black_areas_array_cases (img : ndarray) (t : Z) :
  let r := detect_black_areas_array img t in
  let coords := argwhere (all_lt_axis2 t img) in
  black_pixels r = Z.of_nat (List.length coords) /\
  total_pixels r = Z.of_nat (shape0 img) * Z.of_nat (shape1 img) /\
  percentage r = mul_int (true_divide (black_pixels r) (total_pixels r)) 100 /\
  ((coords = [] /\ has_black r = false /\ black_region r = None) \/
   (exists c0 cs,
      coords = c0 :: cs /\ has_black r = true /\
      black_region r =
        Some {| top := Z.of_nat (fst (min_axis0 c0 cs));
                left := Z.of_nat (snd (min_axis0 c0 cs));
                bottom := Z.of_nat (fst (max_axis0 c0 cs));
                right := Z.of_nat (snd (max_axis0 c0 cs)) |})).
Proof.
  cbv zeta. unfold detect_black_areas_array.
  rewrite sum_mask_length.
  destruct (argwhere (all_lt_axis2 t img)) as [|c0 cs] eqn:Hc.
  - simpl. repeat split. left. auto.
  - replace (0 <? Z.of_nat (List.length (c0 :: cs))) with true
      by (symmetry; apply Z.ltb_lt; simpl List.length; lia).
    cbn [has_black percentage black_pixels total_pixels black_region].
    repeat split. right. exists c0, cs. auto.
Qed.

Lemma is_black_at_inside (img : ndarray) (t : Z) (i j : nat) :
  rectangular img -> is_black_at img t i j = true ->
  (i < shape0 img)%nat /\ (j < shape1 img)%nat.
Proof.
  unfold rectangular, shape0. intros Hrect H.
  rewrite is_black_at_all_lt in H. unfold pixel_at in H.
  destruct (nth_error (rows img) i) as [row|] eqn:Hrow; [|discriminate].
  destruct (nth_error row j) as [p|] eqn:Hp; [|discriminate].
  split.
  - apply nth_error_Some. congruence.
  - rewrite Forall_forall in Hrect.
    rewrite <- (Hrect row (nth_error_In _ _ Hrow)).
    apply nth_error_Some. congruence.
Qed.

(** C2: a bounding box is returned exactly when some pixel is black (and
    then [has_black] is set); the box contains every black pixel, each of
    its four edges holds a black pixel, and [0 <= top <= bottom <= height-1],
    [0 <= left <= right <= width-1]. *)
Theorem C2_region_is_minimal_bounding_box (img : ndarray) (t : Z) :
  rectangular img ->
  let r := detect_black_areas_array img t in
  (black_region r <> None <-> exists i j, is_black_at img t i j = true) /\
  (has_black r = true <-> exists i j, is_black_at img t i j = true) /\
  forall b, black_region r = Some b ->
    (forall i j, is_black_at img t i j = true ->
       top b <= Z.of_nat i <= bottom b /\ left b <= Z.of_nat j <= right b) /\
    (exists j, is_black_at img t (Z.to_nat (top b)) j = true) /\
    (exists j, is_black_at img t (Z.to_nat (bottom b)) j = true) /\
    (exists i, is_black_at img t i (Z.to_nat (left b)) = true) /\
    (exists i, is_black_at img t i (Z.to_nat (right b)) = true) /\
    0 <= top b <= bottom b /\ bottom b <= Z.of_nat (shape0 img) - 1 /\
    0 <= left b <= right b /\ right b <= Z.of_nat (shape1 img) - 1.
Proof.
  intros Hrect r.
  destruct (detect_black_areas_array_cases img t)
    as (_ & _ & _ & [(Hc & Hh & Hr)|(c0 & cs & Hc & Hh & Hr)]);
    fold r in Hh, Hr.
  - assert (Hnone : ~ exists i j, is_black_at img t i j = true).
    { intros (i & j & H). apply In_argwhere_mask in H.
      rewrite Hc in H. exact H. }
    rewrite Hh, Hr. repeat split; try congruence; try tauto; discriminate.
  - assert (Hin : forall i j, In (i, j) (c0 :: cs) <-> is_black_at img t i j = true).
    { intros i j. rewrite <- Hc. apply In_argwhere_mask. }
    assert (Hsome : exists i j, is_black_at img t i j = true).
    { destruct c0 as [i j]. exists i, j. apply Hin. left. reflexivity. }
    rewrite Hh, Hr. split; [split; [auto | congruence]|].
    split; [split; auto|].
    intros b Hb. inversion Hb; subst b; clear Hb. simpl.
    rewrite !Nat2Z.id.
    destruct (min_axis0_attained c0 cs) as [([i1 j1] & I1 & E1) ([i2 j2] & I2 & E2)].
    destruct (max_axis0_attained c0 cs) as [([i3 j3] & I3 & E3) ([i4 j4] & I4 & E4)].
    simpl in E1, E2, E3, E4.
    pose proof (max_axis0_ge c0 cs _ I1) as G1.
    pose proof (max_axis0_ge c0 cs _ I2) as G2.
    apply Hin in I1, I2, I3, I4.
    pose proof (is_black_at_inside _ _ _ _ Hrect I3) as B3.
    pose proof (is_black_at_inside _ _ _ _ Hrect I4) as B4.
    simpl in G1, G2.
    split.
    { intros i j H. apply Hin in H.
      pose proof (min_axis0_le c0 cs _ H) as L.
      pose proof (max_axis0_ge c0 cs _ H) as G. simpl in L, G. lia. }
    split; [exists j1; now rewrite <- E1|].
    split; [exists j3; now rewrite <- E3|].
    split; [exists i2; now rewrite <- E2|].
    split; [exists i4; now rewrite <- E4|].
    lia.
Qed.

Lemma C2_region_is_minimal_bounding_box_witness :
  let img := {| shape1 := 3;
                rows := [[(255, 255, 255); (0, 0, 0); (9, 9, 9)];
                         [(255, 255, 255); (255, 255, 255); (3, 2, 1)];
                         [(10, 0, 0); (255, 255, 255); (255, 255, 255)]] |} in
  black_region (detect_black_areas_array img 10)
    = Some {| top := 0; left := 1; bottom := 1; right := 2 |} /\
  (exists i j, is_black_at img 10 i j = true).
Proof.
  intros img. split; [reflexivity|].
  assert (Hrect : rectangular img) by (repeat constructor).
  destruct (C2_region_is_minimal_bounding_box img 10 Hrect) as [H _].
  apply H. vm_compute. discriminate.
Defined.

(* ================================================================== *)
(** ** Pixel classifier: the percentage *)

Lemma percentage_bounds (a b : Z) :
  0 <= a <= b -> 0 < b ->
  let q := (inject_Z a / inject_Z b * inject_Z 100)%Q in
  (0 <= q)%Q /\ (q <= 100)%Q /\ ((q == 0)%Q <-> a = 0) /\
  (q == 100 * inject_Z a / inject_Z b)%Q.
Proof.
  intros Ha Hb q. subst q.
  destruct b as [|p|p]; try lia.
  unfold Qdiv, Qinv, Qmult, Qle, Qeq, inject_Z. cbn -[Z.mul].
  rewrite ?Pos2Z.inj_mul.
  repeat split; try lia; try nia.
Qed.

Lemma percentage_finite (img : ndarray) (t : Z) :
  (1 <= shape0 img)%nat -> (1 <= shape1 img)%nat ->
  let r := detect_black_areas_array img t in
  1 <= total_pixels r /\
  percentage r =
    Fin (inject_Z (black_pixels r) / inject_Z (total_pixels r) * inject_Z 100)%Q.
Proof.
  intros H0 H1 r.
  destruct (detect_black_areas_array_cases img t) as (_ & Ht & Hp & _).
  fold r in Ht, Hp.
  assert (Hpos : 1 <= total_pixels r) by (rewrite Ht; nia).
  split; [exact Hpos|].
  rewrite Hp. unfold true_divide.
  destruct (Z.eqb_spec (total_pixels r) 0); [lia|reflexivity].
Qed.

(** C3: the black pixels are exactly those with R, G and B all strictly
    below the threshold (10 by default); they are counted once each; the
    percentage is 100 * count / (width * height), lies in [0, 100], and is
    zero exactly when the count is zero, in which case [has_black] is false
    and no region is returned. *)
Theorem C3_count_and_percentage (img : ndarray) (t : Z) :
  loaded_image img ->
  let r := detect_black_areas_array img t in
  default_black_threshold = 10 /\
  (forall i j, is_black_at img t i j = true <->
     exists red green blue,
       pixel_at img i j = Some (red, green, blue) /\
       red < t /\ green < t /\ blue < t) /\
  (exists coords,
     NoDup coords /\
     (forall i j, In (i, j) coords <-> is_black_at img t i j = true) /\
     black_pixels r = Z.of_nat (List.length coords)) /\
  total_pixels r = Z.of_nat (shape1 img) * Z.of_nat (shape0 img) /\
  (exists q,
     percentage r = Fin q /\
     (q == 100 * inject_Z (black_pixels r) /
            inject_Z (Z.of_nat (shape1 img) * Z.of_nat (shape0 img)))%Q /\
     (0 <= q)%Q /\ (q <= 100)%Q /\
     ((q == 0)%Q <-> black_pixels r = 0)) /\
  (feq (percentage r) (Fin 0) = true <-> black_pixels r = 0) /\
  (black_pixels r = 0 <-> has_black r = false) /\
  (black_pixels r = 0 <-> black_region r = None).
Proof.
  intros (Hrect & H0 & H1) r.
  destruct (detect_black_areas_array_cases img t) as (Hb & Ht & _ & Hcases).
  destruct (percentage_finite img t H0 H1) as (Hpos & Hp).
  fold r in Hb, Ht, Hcases, Hpos, Hp.
  assert (Hle : 0 <= black_pixels r <= total_pixels r).
  { split; [rewrite Hb; lia|].
    rewrite Ht. unfold r, detect_black_areas_array.
    destruct (0 <? NumPy.sum (all_lt_axis2 t img));
      [destruct (argwhere (all_lt_axis2 t img))|];
      simpl; now apply sum_mask_le_total. }
  destruct (percentage_bounds _ _ Hle ltac:(lia)) as (Q0 & Q100 & Qz & Qv).
  split; [reflexivity|].
  split.
  { intros i j. unfold is_black_at.
    destruct (pixel_at img i j) as [[[red green] blue]|].
    - rewrite !andb_true_iff, !Z.ltb_lt. split.
      + intros H. exists red, green, blue. tauto.
      + intros (x & y & z & E & H). inversion E; subst. tauto.
    - split; [discriminate|]. intros (x & y & z & E & _). discriminate. }
  split.
  { exists (argwhere (all_lt_axis2 t img)). split; [apply NoDup_argwhere_from|].
    split; [apply In_argwhere_mask | exact Hb]. }
  split; [rewrite Ht; lia|].
  split.
  { eexists. split; [exact Hp|].
    replace (Z.of_nat (shape1 img) * Z.of_nat (shape0 img))
      with (total_pixels r) by (rewrite Ht; lia).
    auto. }
  split.
  { rewrite Hp. simpl. rewrite Qeq_bool_iff. exact Qz. }
  destruct Hcases as [(Hc & Hh & Hr)|(c0 & cs & Hc & Hh & Hr)];
    rewrite Hh, Hr, Hb, Hc; simpl List.length;
    split; split; intros H; try reflexivity; try discriminate; lia.
Qed.

Lemma C3_count_and_percentage_witness :
  let img := {| shape1 := 2;
                rows := [[(0, 0, 0); (9, 9, 9)];
                         [(10, 0, 0); (255, 255, 255)]] |} in
  loaded_image img /\
  black_pixels (detect_black_areas_array img 10) = 2 /\
  percentage (detect_black_areas_array img 10) = Fin (200 # 4) /\
  (black_pixels (detect_black_areas_array img 10) = 0 <->
   has_black (detect_black_areas_array img 10) = false).
Proof.
  intros img.
  assert (Hl : loaded_image img).
  { unfold loaded_image, rectangular, shape0. simpl.
    repeat split; try lia; repeat constructor. }
  split; [exact Hl|]. split; [reflexivity|]. split; [reflexivity|].
  apply (C3_count_and_percentage img 10 Hl).
Defined.

(* ================================================================== *)
(** ** Division by the number of pixels *)





(* ================================================================== *)
(** ** Order facts: file names and percentages *)

Lemma string_ltb_asym (a b : string) :
  String.ltb a b = true -> String.ltb b a = false.
Proof.
  unfold String.ltb. rewrite (String.compare_antisym b a).
  destruct (String.compare a b); simpl; congruence.
Qed.

Lemma string_nlt_trans (a b c : string) :
  String.ltb a b = false -> String.ltb b c = false -> String.ltb a c = false.
Proof.
  unfold String.ltb. intros Hab Hbc.
  destruct (String.compare a c) eqn:Hac; try reflexivity.
  apply String_as_OT.cmp_lt in Hac.
  destruct (String.compare a b) eqn:Eab; try discriminate.
  - apply String_as_OT.cmp_eq in Eab. subst b.
    apply String_as_OT.cmp_lt in Hac. unfold String_as_OT.cmp in Hac.
    rewrite Hac in Hbc. discriminate.
  - assert (Hba : String.compare b a = Lt).
    { rewrite String.compare_antisym, Eab. reflexivity. }
    apply String_as_OT.cmp_lt in Hba.
    pose proof (String_as_OT.lt_trans _ _ _ Hba Hac) as Hlt.
    apply String_as_OT.cmp_lt in Hlt. unfold String_as_OT.cmp in Hlt.
    rewrite Hlt in Hbc. discriminate.
Qed.

Lemma string_nlt_leb (a b : string) :
  String.ltb b a = false <-> String.leb a b = true.
Proof.
  unfold String.ltb, String.leb. rewrite (String.compare_antisym a b).
  destruct (String.compare b a); simpl; split; congruence.
Qed.

Lemma flt_asym (x y : float64) : flt x y = true -> flt y x = false.
Proof.
  destruct x as [p| | |], y as [q| | |]; simpl; try congruence.
  rewrite <- (Qcompare_antisym p q).
  destruct (p ?= q)%Q; simpl; congruence.
Qed.

Lemma flt_Fin_false (p q : Q) : flt (Fin p) (Fin q) = false <-> (q <= p)%Q.
Proof.
  simpl. rewrite Qle_alt, <- (Qcompare_antisym p q).
  destruct (p ?= q)%Q; simpl; split; congruence.
Qed.

Lemma nflt_trans (x y z : float64) :
  is_nan x = false -> is_nan y = false -> is_nan z = false ->
  flt x y = false -> flt y z = false -> flt x z = false.
Proof.
  destruct x as [p| | |], y as [q| | |], z as [r| | |];
    try discriminate; try reflexivity; intros _ _ _.
  rewrite !flt_Fin_false. intros H1 H2. eapply Qle_trans; eauto.
Qed.

Lemma nflt_fle (x y : float64) :
  is_nan x = false -> is_nan y = false ->
  flt x y = false -> fle y x = true.
Proof.
  unfold fle.
  destruct x as [p| | |], y as [q| | |]; try discriminate; try reflexivity;
    intros _ _.
  rewrite flt_Fin_false. intros H. unfold flt, feq.
  destruct (Qcompare_spec q p) as [E|L|G].
  - apply Qeq_bool_iff in E. rewrite E. reflexivity.
  - reflexivity.
  - exfalso. exact (Qlt_not_le _ _ G H).
Qed.

Lemma feq_class_not_lt (k x y : float64) :
  feq x k = true -> feq y k = true -> flt x y = false.
Proof.
  destruct x as [p| | |], y as [q| | |], k as [r| | |];
    try discriminate; try reflexivity.
  simpl feq. rewrite !Qeq_bool_iff. intros H1 H2.
  apply flt_Fin_false. rewrite H1, H2. apply Qle_refl.
Qed.

(* ================================================================== *)
(** ** The two sorts *)

Section SortFacts.
Context {A K : Type} (key : A -> K) (lt : K -> K -> bool).

Lemma insert_asc_perm (x : A) (l : list A) :
  Permutation (x :: l) (Py.insert_asc key lt x l).
Proof.
  induction l as [|y t IH]; simpl; [reflexivity|].
  destruct (lt (key y) (key x)); [|reflexivity].
  rewrite perm_swap. now apply perm_skip.
Qed.

Lemma sorted_perm (l : list A) : Permutation l (Py.sorted key lt l).
Proof.
  induction l as [|x t IH]; simpl; [constructor|].
  rewrite <- insert_asc_perm. now apply perm_skip.
Qed.

Lemma insert_desc_perm (x : A) (l : list A) :
  Permutation (x :: l) (Py.insert_desc key lt x l).
Proof.
  induction l as [|y t IH]; simpl; [reflexivity|].
  destruct (lt (key x) (key y)); [|reflexivity].
  rewrite perm_swap. now apply perm_skip.
Qed.

Lemma sort_reverse_perm (l : list A) :
  Permutation l (Py.sort_reverse key lt l).
Proof.
  induction l as [|x t IH]; simpl; [constructor|].
  rewrite <- insert_desc_perm. now apply perm_skip.
Qed.

(** Keys on which [lt] is a strict total order up to ties. *)
Variable ok : K -> Prop.
Hypothesis lt_asym :
  forall a b, lt a b = true -> lt b a = false.
Hypothesis nlt_trans :
  forall a b c, ok a -> ok b -> ok c ->
    lt a b = false -> lt b c = false -> lt a c = false.

Let all_ok (l : list A) : Prop := Forall (fun x => ok (key x)) l.

Lemma insert_asc_sorted (x : A) (l : list A) :
  ok (key x) -> all_ok l ->
  StronglySorted (fun a b => lt (key b) (key a) = false) l ->
  StronglySorted (fun a b => lt (key b) (key a) = false) (Py.insert_asc key lt x l).
Proof.
  intros Hx Hl Hs. induction Hs as [|y t Hs IH Hy]; simpl.
  - repeat constructor.
  - inversion Hl as [|? ? Hoky Hokt]; subst.
    destruct (lt (key y) (key x)) eqn:E.
    + constructor; [now apply IH|].
      rewrite <- (insert_asc_perm x t).
      constructor; [now apply lt_asym | exact Hy].
    + constructor; [now constructor|].
      constructor; [exact E|].
      rewrite Forall_forall in *. intros z Hz.
      apply (nlt_trans _ (key y) _); auto.
Qed.

Lemma sorted_sorted (l : list A) :
  all_ok l ->
  StronglySorted (fun a b => lt (key b) (key a) = false) (Py.sorted key lt l).
Proof.
  induction 1 as [|x t Hx Ht IH]; simpl; [constructor|].
  apply insert_asc_sorted; auto.
  unfold all_ok. now rewrite <- (sorted_perm t).
Qed.

Lemma insert_desc_sorted (x : A) (l : list A) :
  ok (key x) -> all_ok l ->
  StronglySorted (fun a b => lt (key a) (key b) = false) l ->
  StronglySorted (fun a b => lt (key a) (key b) = false) (Py.insert_desc key lt x l).
Proof.
  intros Hx Hl Hs. induction Hs as [|y t Hs IH Hy]; simpl.
  - repeat constructor.
  - inversion Hl as [|? ? Hoky Hokt]; subst.
    destruct (lt (key x) (key y)) eqn:E.
    + constructor; [now apply IH|].
      rewrite <- (insert_desc_perm x t).
      constructor; [now apply lt_asym | exact Hy].
    + constructor; [now constructor|].
      constructor; [exact E|].
      rewrite Forall_forall in *. intros z Hz.
      apply (nlt_trans _ (key y) _); auto.
Qed.

Lemma sort_reverse_sorted (l : list A) :
  all_ok l ->
  StronglySorted (fun a b => lt (key a) (key b) = false)
                 (Py.sort_reverse key lt l).
Proof.
  induction 1 as [|x t Hx Ht IH]; simpl; [constructor|].
  apply insert_desc_sorted; auto.
  unfold all_ok. now rewrite <- (sort_reverse_perm t).
Qed.

(** Stability: a class of elements none of which is below another keeps
    its order. *)
Variable E : A -> bool.
Hypothesis E_ties :
  forall x y, E x = true -> E y = true -> lt (key x) (key y) = false.

Lemma insert_desc_filter (x : A) (l : list A) :
  filter E (Py.insert_desc key lt x l) = filter E (x :: l).
Proof.
  induction l as [|y t IH]; [reflexivity|].
  cbn [Py.insert_desc].
  destruct (lt (key x) (key y)) eqn:Hlt; [|reflexivity].
  cbn [filter] in *. rewrite IH.
  destruct (E x) eqn:Ex, (E y) eqn:Ey; try reflexivity.
  rewrite (E_ties x y Ex Ey) in Hlt. discriminate.
Qed.

Lemma sort_reverse_stable (l : list A) :
  filter E (Py.sort_reverse key lt l) = filter E l.
Proof.
  induction l as [|x t IH]; [reflexivity|].
  cbn [Py.sort_reverse fold_right].
  rewrite insert_desc_filter. cbn [filter].
  fold (Py.sort_reverse key lt t). now rewrite IH.
Qed.
End SortFacts.

(* ================================================================== *)
(** ** Substrings up to letter case *)

Section Substrings.
Local Open Scope string_scope.

Lemma prefix_app (sub s : string) :
  prefix sub s = true <-> exists post, s = sub ++ post.
Proof.
  revert s. induction sub as [|a sub IH]; intros s.
  - destruct s; simpl; split; eauto.
  - destruct s as [|b s]; simpl.
    + split; [discriminate|]. intros (post & H). discriminate.
    + destruct (ascii_dec a b) as [->|Hne].
      * rewrite IH. split; intros (post & H); exists post; congruence.
      * split; [discriminate|]. intros (post & H). congruence.
Qed.

Lemma str_in_app (sub s : string) :
  Py.str_in sub s = true <-> exists pre post, s = pre ++ sub ++ post.
Proof.
  induction s as [|c s IH]; cbn [Py.str_in]; rewrite orb_true_iff, prefix_app.
  - split.
    + intros [(post & H)|H]; [|discriminate]. exists "", post. exact H.
    + intros (pre & post & H). left.
      destruct pre; [exists post; exact H | discriminate].
  - rewrite IH. split.
    + intros [(post & H)|(pre & post & H)].
      * exists "", post. exact H.
      * exists (String c pre), post. simpl. congruence.
    + intros (pre & post & H). destruct pre as [|d pre]; simpl in H.
      * left. exists post. exact H.
      * right. exists pre, post. congruence.
Qed.

Lemma lower_app (a b : string) :
  Py.lower (a ++ b) = Py.lower a ++ Py.lower b.
Proof. induction a as [|c a IH]; simpl; congruence. Qed.

Lemma lower_split (f p q : string) :
  Py.lower f = p ++ q ->
  exists f1 f2, f = f1 ++ f2 /\ Py.lower f1 = p /\ Py.lower f2 = q.
Proof.
  revert f. induction p as [|c p IH]; intros f H; simpl in H.
  - exists "", f. auto.
  - destruct f as [|d f]; simpl in H; [discriminate|].
    inversion H as [[Hc Hf]]. destruct (IH f Hf) as (f1 & f2 & -> & H1 & H2).
    exists (String d f1), f2. simpl. rewrite H1. auto.
Qed.

Lemma str_in_lower_nocase (f sub : string) :
  Py.str_in sub (Py.lower f) = true <-> contains_nocase f sub.
Proof.
  rewrite str_in_app. unfold contains_nocase. split.
  - intros (pre & post & H).
    destruct (lower_split _ _ _ H) as (f1 & f2 & -> & H1 & H2).
    destruct (lower_split _ _ _ H2) as (f3 & f4 & -> & H3 & H4).
    exists f1, f3, f4. auto.
  - intros (pre & mid & post & -> & H).
    exists (Py.lower pre), (Py.lower post).
    now rewrite !lower_app, H.
Qed.
End Substrings.

(* ================================================================== *)
(** ** Runs of [main] *)

Lemma analyzed_app (a b : list line) :
  analyzed (a ++ b) = analyzed a ++ analyzed b.
Proof. apply flat_map_app. Qed.

Lemma pattern_report_app (a b : list line) :
  pattern_report (a ++ b) = pattern_report a ++ pattern_report b.
Proof. apply filter_app. Qed.

Lemma status_lines_silent (out : list line) :
  Forall (fun l => is_status_line l = true) out ->
  analyzed out = [] /\ pattern_report out = [].
Proof.
  induction 1 as [|l out Hl _ [IH1 IH2]]; [split; reflexivity|].
  destruct l; try discriminate; simpl; auto.
Qed.

Lemma plain_summary_lines_silent (out : list line) :
  Forall (fun l => is_plain_summary_line l = true) out ->
  analyzed out = [] /\ pattern_report out = [].
Proof.
  induction 1 as [|l out Hl _ [IH1 IH2]]; [split; reflexivity|].
  destruct l; try discriminate; simpl; auto.
Qed.

(** A percentage computed from a positive count is never [nan]. *)
Lemma percentage_not_nan (img : ndarray) (t : Z) :
  has_black (detect_black_areas_array img t) = true ->
  is_nan (percentage (detect_black_areas_array img t)) = false.
Proof.
  destruct (detect_black_areas_array_cases img t)
    as (Hb & _ & Hp & [(_ & Hh & _)|(c0 & cs & Hc & _ & _)]).
  - congruence.
  - intros _. rewrite Hp, Hb, Hc. unfold true_divide.
    destruct (total_pixels (detect_black_areas_array img t) =? 0);
      reflexivity.
Qed.

(** One pass of the loop body: the image cannot be opened and the
    exception escapes, or the screenshot is named, some status lines follow
    and at most one issue, for this screenshot, is appended. *)
Lemma analyze_screenshot_run (w : world) (issues : list issue) (s : string) :
  (exists e, analyze_screenshot w issues s = ([L_analyzing s], Raise e)) \/
  (exists out new,
     analyze_screenshot w issues s = (L_analyzing s :: out, Return (issues ++ new)) /\
     Forall (fun l => is_status_line l = true) out /\
     subseq (map file new) [s] /\
     Forall (fun i => is_nan (black_percentage i) = false) new).
Proof.
  unfold analyze_screenshot, detect_black_areas, analyze_ui_regions.
  destruct (open_image w (Py.path_join screenshot_dir s)) as [img|];
    [right | left; eexists; reflexivity].
  pose proof (percentage_not_nan img default_black_threshold) as Hnan.
  destruct (detect_black_areas_array_cases img default_black_threshold)
    as (_ & _ & _ & Hc). cbv zeta in Hc.
  remember (detect_black_areas_array img default_black_threshold) as r.
  destruct Hc as [(_ & Hh & Hr)|(c0 & cs & _ & Hh & Hr)].
  - cbn -[game_area_black]. rewrite Hh. cbn.
    exists [L_no_significant_black (percentage r)], [].
    rewrite app_nil_r. repeat split; repeat constructor.
  - cbn -[game_area_black]. rewrite Hh, Hr.
    match goal with
    | |- context [game_area_black ?b ?u] => destruct (game_area_black b u)
    end; cbn.
    + eexists [_; _], [_]. split; [reflexivity|].
      split; [repeat constructor|].
      split; [apply subseq_take; constructor|].
      constructor; [cbn; auto | constructor].
    + exists [L_black_detected (percentage r); L_black_in_ui_only], [].
      rewrite app_nil_r. repeat split; repeat constructor.
Qed.

Lemma subseq_app {A} (l1 l2 m1 m2 : list A) :
  subseq l1 m1 -> subseq l2 m2 -> subseq (l1 ++ l2) (m1 ++ m2).
Proof.
  induction 1; intros H2; simpl; auto using @subseq_skip, @subseq_take.
Qed.

Lemma subseq_Forall {A} (P : A -> Prop) (l m : list A) :
  subseq l m -> Forall P m -> Forall P l.
Proof.
  induction 1; intros Hm; auto; inversion Hm; subst; auto.
Qed.

Lemma subseq_StronglySorted {A} (R : A -> A -> Prop) (l m : list A) :
  subseq l m -> StronglySorted R m -> StronglySorted R l.
Proof.
  induction 1 as [|x l m Hs IH|x l m Hs IH]; intros Hm; auto;
    inversion Hm; subst; auto.
  constructor; auto. eapply subseq_Forall; eauto.
Qed.

(** The whole loop: the screenshots are taken in list order; the loop ends
    by an escaping exception after a prefix of them, or runs through all of
    them and appends, in that order, at most one issue for each. *)
Lemma for_each_analyze_run (w : world) (l : list string) (issues : list issue) :
  exists out res,
    for_each l issues (analyze_screenshot w) = (out, res) /\
    (exists rest, l = analyzed out ++ rest) /\
    pattern_report out = [] /\
    match res with
    | Return final =>
        analyzed out = l /\
        exists new,
          final = issues ++ new /\
          subseq (map file new) l /\
          Forall (fun i => is_nan (black_percentage i) = false) new
    | SystemExit _ => False
    | Raise _ => True
    end.
Proof.
  revert issues. induction l as [|s l IH]; intros issues.
  - exists [], (Return issues). cbn. repeat split; [exists []; reflexivity|].
    exists []. rewrite app_nil_r. repeat split; constructor.
  - cbn [for_each].
    destruct (analyze_screenshot_run w issues s)
      as [(e & ->)|(out1 & new1 & -> & Hst & Hsub1 & Hnan1)].
    + exists [L_analyzing s], (Raise e). cbn. repeat split.
      exists l. reflexivity.
    + destruct (status_lines_silent _ Hst) as [Ha1 Hp1].
      destruct (IH (issues ++ new1)) as (out2 & res & Heq & (rest & Hrest) & Hp2 & Hres).
      exists (L_analyzing s :: out1 ++ out2), res.
      cbn [bind]. rewrite Heq.
      split; [reflexivity|]. split.
      { exists rest. cbn. rewrite analyzed_app, Ha1. cbn. congruence. }
      split.
      { cbn. rewrite pattern_report_app, Hp1, Hp2. reflexivity. }
      destruct res as [final|c|e]; auto.
      destruct Hres as (Hall & new2 & -> & Hsub2 & Hnan2). split.
      { cbn. rewrite analyzed_app, Ha1. cbn. congruence. }
      exists (new1 ++ new2). rewrite app_assoc. split; [reflexivity|]. split.
      { rewrite map_app. change (s :: l) with ([s] ++ l).
        now apply subseq_app. }
      apply Forall_app; auto.
Qed.

Lemma print_ranked_run (i : nat) (l : list issue) :
  exists out,
    print_ranked i l = (out, Return tt) /\
    Forall (fun x => is_plain_summary_line x = true) out.
Proof.
  revert i. induction l as [|x l IH]; intros i.
  - exists []. split; [reflexivity | constructor].
  - destruct (IH (S i)) as (out & Heq & Hout).
    eexists. cbn [print_ranked bind print]. rewrite Heq. cbn.
    split; [reflexivity|]. repeat (constructor; [reflexivity|]). exact Hout.
Qed.


Lemma screenshots_of_perm (names : list string) :
  Permutation (filter (fun f => Py.endswith f ".png") names) (screenshots_of names).
Proof. apply sorted_perm. Qed.

Lemma screenshots_of_nil_iff (names : list string) :
  screenshots_of names = [] <->
  filter (fun f => Py.endswith f ".png") names = [].
Proof.
  pose proof (screenshots_of_perm names) as P. split; intros H; rewrite H in P.
  - now apply Permutation_nil, Permutation_sym.
  - now apply Permutation_nil.
Qed.

(** What the summary adds once the loop is over. *)
Lemma main_issues_found_completed (w : world) (names : list string)
  (out : list line) (collected : list issue) :
  listdir w = Some names ->
  screenshots_of names <> [] ->
  for_each (screenshots_of names) [] (analyze_screenshot w) = (out, Return collected) ->
  let final := sort_issues collected in
  exists tail,
    main_issues_found w =
      (L_analyzing_count (List.length (screenshots_of names)) :: out ++ tail,
       Return final) /\
    analyzed tail = [] /\
    pattern_report tail =
      (if is_empty (edge_issues final) then []
       else [L_edge_issues (List.length (edge_issues final))]) ++
      (if is_empty (zoom_issues final) then []
       else [L_zoom_issues (List.length (zoom_issues final))]).
Proof.
  intros Hdir Hne Hloop final.
  unfold main_issues_found. rewrite Hdir. cbv zeta.
  destruct (screenshots_of names) as [|s l] eqn:Hs; [congruence|].
  cbn [is_empty]. rewrite Hloop.
  destruct collected as [|i c].
  - eexists. cbn. split; [reflexivity|]. split; reflexivity.
  - destruct (print_ranked_run 0 (firstn 5 final)) as (ranked & Hr & Hplain).
    destruct (plain_summary_lines_silent _ Hplain) as [Ha Hp].
    cbn [is_empty negb bind print].
    change (sort_issues (i :: c)) with final.
    rewrite Hr. cbn [bind print].
    destruct (is_empty (edge_issues final)), (is_empty (zoom_issues final));
      cbn [bind print ret app]; eexists; (split; [reflexivity|]);
      cbn [analyzed pattern_report flat_map filter app];
      rewrite ?analyzed_app, ?pattern_report_app, Ha, Hp; split; reflexivity.
Qed.

Lemma main_issues_found_aborted (w : world) (names : list string)
  (out : list line) (e : exn) :
  listdir w = Some names ->
  screenshots_of names <> [] ->
  for_each (screenshots_of names) [] (analyze_screenshot w) = (out, Raise e) ->
  main_issues_found w =
    (L_analyzing_count (List.length (screenshots_of names)) :: out, Raise e).
Proof.
  intros Hdir Hne Hloop.
  unfold main_issues_found. rewrite Hdir. cbv zeta.
  destruct (screenshots_of names) as [|s l] eqn:Hs; [congruence|].
  cbn [is_empty]. rewrite Hloop. reflexivity.
Qed.

Lemma main_issues_found_no_directory (w : world) :
  listdir w = None ->
  main_issues_found w =
    ([L_dir_not_found screenshot_dir; L_run_cargo], SystemExit 1).
Proof. intros H. unfold main_issues_found. rewrite H. reflexivity. Qed.

Lemma main_issues_found_no_screenshots (w : world) (names : list string) :
  listdir w = Some names ->
  screenshots_of names = [] ->
  main_issues_found w = ([L_no_screenshots], SystemExit 1).
Proof.
  intros H Hs. unfold main_issues_found. rewrite H. cbv zeta. rewrite Hs.
  reflexivity.
Qed.

(** A run that reaches the [return] of [main] listed the directory, found
    screenshots, went through all of them and sorted what it collected. *)
Lemma main_issues_found_returns (w : world) (final : list issue) :
  result (main_issues_found w) = Return final ->
  exists names out collected tail,
    listdir w = Some names /\
    for_each (screenshots_of names) [] (analyze_screenshot w)
      = (out, Return collected) /\
    analyzed out = screenshots_of names /\
    pattern_report out = [] /\
    subseq (map file collected) (screenshots_of names) /\
    Forall (fun i => is_nan (black_percentage i) = false) collected /\
    final = sort_issues collected /\
    stdout (main_issues_found w) =
      L_analyzing_count (List.length (screenshots_of names)) :: out ++ tail /\
    analyzed tail = [] /\
    pattern_report tail =
      (if is_empty (edge_issues final) then []
       else [L_edge_issues (List.length (edge_issues final))]) ++
      (if is_empty (zoom_issues final) then []
       else [L_zoom_issues (List.length (zoom_issues final))]).
Proof.
  intros Hres.
  destruct (listdir w) as [names|] eqn:Hdir;
    [|rewrite (main_issues_found_no_directory w Hdir) in Hres; discriminate].
  destruct (list_eq_dec string_dec (screenshots_of names) []) as [Hs|Hs];
    [rewrite (main_issues_found_no_screenshots w names Hdir Hs) in Hres;
     discriminate|].
  destruct (for_each_analyze_run w (screenshots_of names) [])
    as (out & res & Hloop & _ & Hpat & Hcase).
  destruct res as [collected|c|e]; [|contradiction|].
  - destruct Hcase as (Hall & new & -> & Hsub & Hnan).
    destruct (main_issues_found_completed w names out _ Hdir Hs Hloop)
      as (tail & Hrun & Ha & Hp).
    rewrite Hrun in Hres. cbn in Hres. inversion Hres; subst final.
    exists names, out, new, tail. rewrite Hrun. cbn [stdout fst]. cbn [app] in *.
    repeat split; auto.
  - rewrite (main_issues_found_aborted w names out e Hdir Hs Hloop) in Hres.
    discriminate.
Qed.

Lemma StronglySorted_weaken {A} (R R' : A -> A -> Prop) (l : list A) :
  (forall a b, R a b -> R' a b) -> StronglySorted R l -> StronglySorted R' l.
Proof.
  intros HR. induction 1 as [|x l Hs IH Hx]; constructor; auto.
  eapply Forall_impl; [|exact Hx]. auto.
Qed.

Lemma screenshots_of_sorted (names : list string) :
  StronglySorted (fun a b => String.leb a b = true) (screenshots_of names).
Proof.
  apply StronglySorted_weaken
    with (R := fun a b : string => String.ltb b a = false).
  - intros a b. apply string_nlt_leb.
  - unfold screenshots_of, Py.sorted_str.
    apply (sorted_sorted (fun s : string => s) String.ltb (fun _ => True)).
    + apply string_ltb_asym.
    + intros a b c _ _ _. apply string_nlt_trans.
    + apply Forall_forall. auto.
Qed.

Lemma sort_issues_sorted (l : list issue) :
  Forall (fun i => is_nan (black_percentage i) = false) l ->
  StronglySorted (fun a b => fle (black_percentage b) (black_percentage a) = true)
                 (sort_issues l).
Proof.
  intros Hl.
  assert (Hs : Forall (fun i => is_nan (black_percentage i) = false) (sort_issues l)).
  { unfold sort_issues. now rewrite <- sort_reverse_perm. }
  pose proof (sort_reverse_sorted black_percentage flt
                (fun k => is_nan k = false) flt_asym nflt_trans l Hl) as S.
  fold (sort_issues l) in S.
  induction S as [|x t St IH Hx]; constructor.
  - inversion Hs; subst. auto.
  - inversion Hs as [|? ? Hnx Hnt]; subst.
    rewrite Forall_forall in *. intros y Hy.
    apply nflt_fle; auto.
Qed.

Lemma sort_issues_stable (k : float64) (l : list issue) :
  filter (fun i => feq (black_percentage i) k) (sort_issues l) =
  filter (fun i => feq (black_percentage i) k) l.
Proof.
  apply sort_reverse_stable. intros x y. apply feq_class_not_lt.
Qed.

Lemma subseq_filter {A} (f : A -> bool) (l : list A) : subseq (filter f l) l.
Proof.
  induction l as [|x l IH]; simpl; [constructor|].
  destruct (f x); now constructor.
Qed.

(* ================================================================== *)
(** ** Processing order and ranking *)

(** C5: the screenshots are the [.png] names of the directory in ascending
    lexicographic order and are analysed in that order; a run that reaches
    the summary returns the collected issues sorted once, after the loop:
    the same issues, in non-increasing order of black percentage, those
    with equal percentage in the order in which they were collected, which
    is the lexicographic order of their file names. *)
Theorem C5_processing_order_and_stable_ranking (w : world) (names : list string) :
  listdir w = Some names ->
  let screenshots := screenshots_of names in
  let run := main_issues_found w in
  Permutation (filter (fun f => Py.endswith f ".png") names) screenshots /\
  StronglySorted (fun a b => String.leb a b = true) screenshots /\
  (exists rest, screenshots = analyzed (stdout run) ++ rest) /\
  forall final, result run = Return final ->
    analyzed (stdout run) = screenshots /\
    exists out collected,
      for_each screenshots [] (analyze_screenshot w) = (out, Return collected) /\
      subseq (map file collected) screenshots /\
      StronglySorted (fun a b => String.leb a b = true) (map file collected) /\
      final = sort_issues collected /\
      Permutation collected final /\
      StronglySorted
        (fun a b => fle (black_percentage b) (black_percentage a) = true) final /\
      forall k,
        filter (fun i => feq (black_percentage i) k) final =
        filter (fun i => feq (black_percentage i) k) collected.
Proof.
  intros Hdir screenshots run.
  split; [apply screenshots_of_perm|].
  split; [apply screenshots_of_sorted|].
  split.
  - subst run.
    destruct (list_eq_dec string_dec screenshots []) as [Hs|Hs].
    + rewrite (main_issues_found_no_screenshots w names Hdir Hs).
      exists screenshots. reflexivity.
    + destruct (for_each_analyze_run w screenshots [])
        as (out & res & Hloop & (rest & Hrest) & _ & Hcase).
      destruct res as [collected|c|e]; [|contradiction|].
      * destruct (main_issues_found_completed w names out _ Hdir Hs Hloop)
          as (tail & -> & Ha & _).
        exists rest. cbn [stdout fst analyzed flat_map app].
        fold (analyzed (out ++ tail)). now rewrite analyzed_app, Ha, app_nil_r.
      * rewrite (main_issues_found_aborted w names out e Hdir Hs Hloop).
        exists rest. exact Hrest.
  - intros final Hres.
    destruct (main_issues_found_returns w final Hres)
      as (names' & out & collected & tail & Hdir' & Hloop & Hall & _ & Hsub
          & Hnan & Hfinal & Hout & Ha & _).
    assert (names' = names) by congruence. subst names'.
    fold screenshots in Hloop, Hall, Hsub, Hout.
    split.
    { subst run. rewrite Hout. cbn [analyzed flat_map app].
      fold (analyzed (out ++ tail)). now rewrite analyzed_app, Ha, app_nil_r. }
    exists out, collected.
    split; [exact Hloop|]. split; [exact Hsub|].
    split.
    { eapply subseq_StronglySorted; [exact Hsub|]. apply screenshots_of_sorted. }
    split; [exact Hfinal|]. subst final.
    split; [apply sort_reverse_perm|].
    split; [now apply sort_issues_sorted|].
    intros k. apply sort_issues_stable.
Qed.

Lemma C5_processing_order_and_stable_ranking_witness :
  listdir Scenario.tiles = Some Scenario.names /\
  analyzed (stdout (main_issues_found Scenario.tiles)) =
    ["Zoom_low.png"; "center.png"; "edge_north.png"; "zoom_out_edge.png"]%string /\
  exists final,
    result (main_issues_found Scenario.tiles) = Return final /\
    map file final = ["edge_north.png"; "zoom_out_edge.png"; "Zoom_low.png"]%string.
Proof.
  split; [reflexivity|].
  destruct (C5_processing_order_and_stable_ranking
              Scenario.tiles Scenario.names eq_refl) as (_ & _ & _ & H).
  assert (Hrun : exists final,
             result (main_issues_found Scenario.tiles) = Return final /\
             map file final
             = ["edge_north.png"; "zoom_out_edge.png"; "Zoom_low.png"]%string).
  { vm_compute. eexists. split; reflexivity. }
  destruct Hrun as (final & Hres & Hfiles).
  destruct (H final Hres) as (Ha & _).
  split; [rewrite Ha; vm_compute; reflexivity|].
  exists final. split; assumption.
Defined.

(* ================================================================== *)
(** ** Verdict and exit status *)

(** C6: when the analysis completes, the verdict is pass exactly when the
    final issue list is empty, and the exit status of the process is 0
    exactly when the verdict is pass, and not 0 otherwise. *)
Theorem C6_verdict_and_exit_status (w : world) (success : bool) :
  packages_installed w = true ->
  result (main w) = Return success ->
  exists final,
    result (main_issues_found w) = Return final /\
    (verdict_of success = Pass <-> final = []) /\
    (exit_status w = 0 <-> verdict_of success = Pass) /\
    (exit_status w <> 0 <-> verdict_of success = Fail).
Proof.
  intros Hpk Hmain.
  unfold exit_status, script. rewrite Hpk. cbn [negb].
  unfold main in *.
  destruct (main_issues_found w) as [out [final|c|e]]; try discriminate.
  cbn in Hmain |- *. inversion Hmain; subst success; clear Hmain.
  exists final. split; [reflexivity|].
  destruct final as [|i l]; cbn; repeat split;
    intros; try reflexivity; try discriminate; try lia; try congruence.
Qed.

Lemma C6_verdict_and_exit_status_witness :
  result (main Scenario.tiles) = Return false /\
  exit_status Scenario.tiles = 1 /\
  exists final,
    result (main_issues_found Scenario.tiles) = Return final /\
    (verdict_of false = Pass <-> final = []).
Proof.
  split; [vm_compute; reflexivity|].
  split; [vm_compute; reflexivity|].
  destruct (C6_verdict_and_exit_status Scenario.tiles false)
    as (final & Hres & Hv & _).
  - reflexivity.
  - vm_compute. reflexivity.
  - exists final. split; assumption.
Defined.

(** C7: when the directory is missing or holds no [.png] file, the run
    ends on its diagnostic with [sys.exit(1)] before any screenshot is
    analysed, and its exit status 1 differs from the status 0 of a run that
    completes without issue. *)
Theorem C7_no_screenshots_fails_before_analysis (w : world) :
  packages_installed w = true ->
  (listdir w = None \/
   exists names,
     listdir w = Some names /\
     filter (fun f => Py.endswith f ".png") names = []) ->
  result (main w) = SystemExit 1 /\
  (stdout (main w) = [L_dir_not_found screenshot_dir; L_run_cargo] \/
   stdout (main w) = [L_no_screenshots]) /\
  analyzed (stdout (main w)) = [] /\
  exit_status w = 1 /\
  forall w',
    packages_installed w' = true ->
    result (main w') = Return true ->
    exit_status w' = 0 /\ exit_status w' <> exit_status w.
Proof.
  intros Hpk Hno.
  assert (Hrun : main w = ([L_dir_not_found screenshot_dir; L_run_cargo], SystemExit 1)
                 \/ main w = ([L_no_screenshots], SystemExit 1)).
  { unfold main. destruct Hno as [Hdir|(names & Hdir & Hnone)].
    - left. now rewrite (main_issues_found_no_directory w Hdir).
    - right. apply screenshots_of_nil_iff in Hnone.
      now rewrite (main_issues_found_no_screenshots w names Hdir Hnone). }
  assert (Hexit : exit_status w = 1).
  { unfold exit_status, script. rewrite Hpk.
    destruct Hrun as [-> | ->]; reflexivity. }
  split; [destruct Hrun as [-> | ->]; reflexivity|].
  split; [destruct Hrun as [-> | ->]; auto|].
  split; [destruct Hrun as [-> | ->]; reflexivity|].
  split; [exact Hexit|].
  intros w' Hpk' Hmain'.
  assert (Hexit' : exit_status w' = 0).
  { unfold exit_status, script. rewrite Hpk'. cbn [negb].
    destruct (main w') as [out' r']. cbn in Hmain'. subst r'. reflexivity. }
  split; [exact Hexit'|]. rewrite Hexit, Hexit'. discriminate.
Qed.

Lemma C7_no_screenshots_fails_before_analysis_witness :
  result (main Scenario.no_png) = SystemExit 1 /\
  analyzed (stdout (main Scenario.no_png)) = [] /\
  exit_status Scenario.no_png = 1 /\
  exit_status Scenario.clean = 0.
Proof.
  destruct (C7_no_screenshots_fails_before_analysis Scenario.no_png)
    as (Hres & _ & Ha & He & Hother).
  - reflexivity.
  - right. exists ["notes.txt"; "png"]%string. split; reflexivity.
  - split; [exact Hres|]. split; [exact Ha|]. split; [exact He|].
    apply (Hother Scenario.clean); vm_compute; reflexivity.
Defined.

(* ================================================================== *)
(** ** Pattern attribution *)

(** C9: on the final, sorted issue list the script forms two subsets, the
    issues whose file name contains "edge" and those whose file name
    contains "zoom", letter case ignored.  An issue matching both is in
    both.  Each subset only yields one count line, printed when the subset
    is not empty; the issue list is the sorted collection and the verdict is
    taken from its length alone. *)
Theorem C9_pattern_attribution (w : world) (final : list issue) :
  result (main_issues_found w) = Return final ->
  (forall i, In i (edge_issues final) <->
             In i final /\ contains_nocase (file i) "edge") /\
  (forall i, In i (zoom_issues final) <->
             In i final /\ contains_nocase (file i) "zoom") /\
  subseq (edge_issues final) final /\
  subseq (zoom_issues final) final /\
  (forall i, In i final ->
     contains_nocase (file i) "edge" -> contains_nocase (file i) "zoom" ->
     In i (edge_issues final) /\ In i (zoom_issues final)) /\
  pattern_report (stdout (main_issues_found w)) =
    (if is_empty (edge_issues final) then []
     else [L_edge_issues (List.length (edge_issues final))]) ++
    (if is_empty (zoom_issues final) then []
     else [L_zoom_issues (List.length (zoom_issues final))]) /\
  (exists names out collected,
     listdir w = Some names /\
     for_each (screenshots_of names) [] (analyze_screenshot w)
       = (out, Return collected) /\
     final = sort_issues collected) /\
  result (main w) = Return (is_empty final).
Proof.
  intros Hres.
  assert (Hedge : forall i, In i (edge_issues final) <->
                            In i final /\ contains_nocase (file i) "edge").
  { intros i. unfold edge_issues. now rewrite filter_In, str_in_lower_nocase. }
  assert (Hzoom : forall i, In i (zoom_issues final) <->
                            In i final /\ contains_nocase (file i) "zoom").
  { intros i. unfold zoom_issues. now rewrite filter_In, str_in_lower_nocase. }
  split; [exact Hedge|]. split; [exact Hzoom|].
  split; [apply subseq_filter|]. split; [apply subseq_filter|].
  split.
  { intros i Hi He Hz. split; [apply Hedge | apply Hzoom]; auto. }
  destruct (main_issues_found_returns w final Hres)
    as (names & out & collected & tail & Hdir & Hloop & _ & Hpo & _ & _
        & Hfinal & Hout & _ & Hpt).
  split.
  { unfold stdout in *. rewrite Hout.
    change (L_analyzing_count (List.length (screenshots_of names)) :: out ++ tail)
      with ([L_analyzing_count (List.length (screenshots_of names))] ++ out ++ tail).
    rewrite !pattern_report_app, Hpo, Hpt. reflexivity. }
  split; [exists names, out, collected; auto|].
  unfold main. destruct (main_issues_found w) as [o r].
  cbn in Hres. subst r. cbn. now destruct final.
Qed.

Lemma C9_pattern_attribution_witness :
  exists final,
    result (main_issues_found Scenario.tiles) = Return final /\
    map file (edge_issues final) = ["edge_north.png"; "zoom_out_edge.png"]%string /\
    map file (zoom_issues final) = ["zoom_out_edge.png"; "Zoom_low.png"]%string /\
    pattern_report (stdout (main_issues_found Scenario.tiles)) =
      [L_edge_issues 2; L_zoom_issues 2] /\
    result (main Scenario.tiles) = Return (is_empty final).
Proof.
  assert (Hrun : exists final,
             result (main_issues_found Scenario.tiles) = Return final /\
             map file (edge_issues final)
             = ["edge_north.png"; "zoom_out_edge.png"]%string /\
             map file (zoom_issues final)
             = ["zoom_out_edge.png"; "Zoom_low.png"]%string).
  { vm_compute. eexists. repeat split; reflexivity. }
  destruct Hrun as (final & Hres & He & Hz).
  destruct (C9_pattern_attribution Scenario.tiles final Hres)
    as (_ & _ & _ & _ & _ & Hp & _ & Hv).
  exists final.
  split; [exact Hres|]. split; [exact He|]. split; [exact Hz|].
  split; [vm_compute; reflexivity | exact Hv].
Defined.

(* ================================================================== *)
(** ** Further properties of the pixel classifier *)

(** The box, read against the black pixels, without any assumption on the
    shape of the array. *)
Lemma region_extremes (img : ndarray) (t : Z) (b : box) :
  black_region (detect_black_areas_array img t) = Some b ->
  (forall i j, is_black_at img t i j = true ->
     top b <= Z.of_nat i <= bottom b /\ left b <= Z.of_nat j <= right b) /\
  (exists i j, is_black_at img t i j = true /\ Z.of_nat i = top b) /\
  (exists i j, is_black_at img t i j = true /\ Z.of_nat i = bottom b) /\
  (exists i j, is_black_at img t i j = true /\ Z.of_nat j = left b) /\
  (exists i j, is_black_at img t i j = true /\ Z.of_nat j = right b).
Proof.
  intros Hb.
  destruct (detect_black_areas_array_cases img t)
    as (_ & _ & _ & [(_ & _ & Hr)|(c0 & cs & Hc & _ & Hr)]); [congruence|].
  rewrite Hr in Hb. inversion Hb; subst b; clear Hb. cbn [top left bottom right].
  assert (Hin : forall i j, In (i, j) (c0 :: cs) <-> is_black_at img t i j = true).
  { intros i j. rewrite <- Hc. apply In_argwhere_mask. }
  destruct (min_axis0_attained c0 cs) as [([i1 j1] & I1 & E1) ([i2 j2] & I2 & E2)].
  destruct (max_axis0_attained c0 cs) as [([i3 j3] & I3 & E3) ([i4 j4] & I4 & E4)].
  simpl in E1, E2, E3, E4. apply Hin in I1, I2, I3, I4.
  split.
  { intros i j H. apply Hin in H.
    pose proof (min_axis0_le c0 cs _ H) as L.
    pose proof (max_axis0_ge c0 cs _ H) as G. simpl in L, G. lia. }
  split; [exists i1, j1; split; [assumption | now rewrite E1]|].
  split; [exists i3, j3; split; [assumption | now rewrite E3]|].
  split; [exists i2, j2; split; [assumption | now rewrite E2]|].
  exists i4, j4; split; [assumption | now rewrite E4].
Qed.

(** X1: The bounding-box test, read on the pixels: the box is flagged exactly
    when some black pixel lies below row 60 and some black pixel, possibly
    another one, lies right of column 200. *)
Theorem flagged_iff_black_below_header_and_right_of_sidebar
  (img : ndarray) (t : Z) (b : box) (w h : Z) :
  black_region (detect_black_areas_array img t) = Some b ->
  (game_area_black b (fst (analyze_ui_regions_size w h)) = true <->
   (exists i j, is_black_at img t i j = true /\ (60 < i)%nat) /\
   (exists i j, is_black_at img t i j = true /\ (200 < j)%nat)).
Proof.
  intros Hb.
  destruct (region_extremes img t b Hb)
    as (Hall & _ & (i3 & j3 & B3 & E3) & _ & (i4 & j4 & B4 & E4)).
  rewrite game_area_black_spec, andb_true_iff, !Z.ltb_lt. split.
  - intros [H1 H2]. split; [exists i3, j3 | exists i4, j4]; split; auto; lia.
  - intros [(i & j & B & Hi) (i' & j' & B' & Hj)].
    pose proof (Hall _ _ B). pose proof (Hall _ _ B'). lia.
Qed.

Lemma flagged_iff_black_below_header_and_right_of_sidebar_witness :
  let img := {| shape1 := 202;
                rows := repeat (repeat Scenario.white_px 201 ++ [Scenario.black_px]) 1
                        ++ repeat (repeat Scenario.white_px 202) 60
                        ++ [Scenario.black_px :: repeat Scenario.white_px 201] |} in
  black_region (detect_black_areas_array img 10)
    = Some {| top := 0; left := 0; bottom := 61; right := 201 |} /\
  is_black_at img 10 61 201 = false /\
  (exists i j, is_black_at img 10 i j = true /\ (60 < i)%nat) /\
  (exists i j, is_black_at img 10 i j = true /\ (200 < j)%nat).
Proof.
  intros img.
  assert (Hb : black_region (detect_black_areas_array img 10)
               = Some {| top := 0; left := 0; bottom := 61; right := 201 |})
    by (vm_compute; reflexivity).
  split; [exact Hb|]. split; [vm_compute; reflexivity|].
  apply (flagged_iff_black_below_header_and_right_of_sidebar
           img 10 _ 202 62 Hb).
  vm_compute. reflexivity.
Defined.

(** X2: An image of at most 61 rows, or of at most 201 columns, is never
    flagged, whatever it shows. *)
Theorem small_image_never_flagged (img : ndarray) (t : Z) (b : box) (w h : Z) :
  rectangular img ->
  (shape0 img <= 61)%nat \/ (shape1 img <= 201)%nat ->
  black_region (detect_black_areas_array img t) = Some b ->
  game_area_black b (fst (analyze_ui_regions_size w h)) = false.
Proof.
  intros Hrect Hsmall Hb.
  destruct (region_extremes img t b Hb)
    as (_ & _ & (i3 & j3 & B3 & E3) & _ & (i4 & j4 & B4 & E4)).
  pose proof (is_black_at_inside _ _ _ _ Hrect B3) as I3.
  pose proof (is_black_at_inside _ _ _ _ Hrect B4) as I4.
  rewrite game_area_black_spec, andb_false_iff, !Z.ltb_ge. lia.
Qed.

Lemma small_image_never_flagged_witness :
  game_area_black {| top := 0; left := 0; bottom := 60; right := 299 |}
                  (fst (analyze_ui_regions_size 300 61)) = false.
Proof.
  apply (small_image_never_flagged (Scenario.solid 61 300 Scenario.black_px) 10).
  - apply Forall_forall. intros r Hr. apply repeat_spec in Hr. subst r.
    apply repeat_length.
  - left. vm_compute. lia.
  - vm_compute. reflexivity.
Defined.

(** Raising the threshold only adds black pixels. *)
Lemma all_lt_mono (t t' : Z) (p : pixel) :
  t <= t' -> all_lt t p = true -> all_lt t' p = true.
Proof.
  destruct p as [[r g] b]. rewrite !all_lt_spec. lia.
Qed.

Lemma is_black_at_mono (img : ndarray) (t t' : Z) (i j : nat) :
  t <= t' -> is_black_at img t i j = true -> is_black_at img t' i j = true.
Proof.
  intros Ht. rewrite !is_black_at_all_lt.
  destruct (pixel_at img i j); [apply all_lt_mono; assumption | auto].
Qed.

Lemma sum_mask_mono (img : ndarray) (t t' : Z) :
  t <= t' ->
  NumPy.sum (all_lt_axis2 t img) <= NumPy.sum (all_lt_axis2 t' img).
Proof.
  intros Ht. unfold NumPy.sum, all_lt_axis2. apply inj_le.
  induction (rows img) as [|row m IH]; simpl; [lia|].
  assert (Hrow : (count_true (map (all_lt t) row)
                  <= count_true (map (all_lt t') row))%nat).
  { unfold count_true. clear IH.
    induction row as [|p row IHr]; simpl; [lia|].
    destruct (all_lt t p) eqn:E.
    - rewrite (all_lt_mono t t' p Ht E). simpl. lia.
    - destruct (all_lt t' p); simpl; lia. }
  lia.
Qed.

(** X3: Monotonicity in the threshold: with a larger threshold the count does
    not decrease, a result with black stays one, and the box can only grow. *)
Theorem threshold_monotone (img : ndarray) (t t' : Z) :
  t <= t' ->
  let r := detect_black_areas_array img t in
  let r' := detect_black_areas_array img t' in
  black_pixels r <= black_pixels r' /\
  (has_black r = true -> has_black r' = true) /\
  forall b, black_region r = Some b ->
    exists b', black_region r' = Some b' /\
      top b' <= top b /\ left b' <= left b /\
      bottom b <= bottom b' /\ right b <= right b'.
Proof.
  intros Ht r r'.
  destruct (detect_black_areas_array_cases img t) as (Hb & _ & _ & Hc).
  destruct (detect_black_areas_array_cases img t') as (Hb' & _ & _ & Hc').
  fold r in Hb, Hc. fold r' in Hb', Hc'.
  assert (Hle : black_pixels r <= black_pixels r').
  { rewrite Hb, Hb', <- !sum_mask_length. now apply sum_mask_mono. }
  split; [exact Hle|].
  assert (Hpos : 0 < black_pixels r -> exists b', black_region r' = Some b').
  { intros Hp. destruct Hc' as [(E & _ & _)|(c0 & cs & _ & _ & Hr')].
    - rewrite Hb', E in Hle. simpl in Hle. lia.
    - eexists; exact Hr'. }
  split.
  - intros Hh. destruct Hc as [(_ & Hf & _)|(c0 & cs & E & _ & _)]; [congruence|].
    destruct Hc' as [(E' & _ & _)|(c0' & cs' & _ & Hh' & _)]; [|exact Hh'].
    rewrite Hb, Hb', E, E' in Hle. simpl in Hle. lia.
  - intros b Hr.
    destruct Hpos as (b' & Hr').
    { destruct Hc as [(_ & _ & Hn)|(c0 & cs & E & _ & _)]; [congruence|].
      rewrite Hb, E. simpl. lia. }
    exists b'. split; [exact Hr'|].
    destruct (region_extremes img t b Hr)
      as (_ & (i1 & j1 & B1 & E1) & (i3 & j3 & B3 & E3)
          & (i2 & j2 & B2 & E2) & (i4 & j4 & B4 & E4)).
    destruct (region_extremes img t' b' Hr') as (Hall & _).
    pose proof (Hall _ _ (is_black_at_mono img t t' _ _ Ht B1)).
    pose proof (Hall _ _ (is_black_at_mono img t t' _ _ Ht B2)).
    pose proof (Hall _ _ (is_black_at_mono img t t' _ _ Ht B3)).
    pose proof (Hall _ _ (is_black_at_mono img t t' _ _ Ht B4)).
    lia.
Qed.

Lemma threshold_monotone_witness :
  let img := {| shape1 := 2;
                rows := [[(200, 200, 200); (5, 5, 5)];
                         [(50, 40, 30); (200, 200, 200)]] |} in
  black_pixels (detect_black_areas_array img 10) = 1 /\
  black_pixels (detect_black_areas_array img 60) = 2 /\
  black_pixels (detect_black_areas_array img 10)
    <= black_pixels (detect_black_areas_array img 60).
Proof.
  intros img. split; [reflexivity|]. split; [reflexivity|].
  apply (threshold_monotone img 10 60). lia.
Defined.

Lemma pixel_at_inside (img : ndarray) (i j : nat) :
  rectangular img -> (i < shape0 img)%nat -> (j < shape1 img)%nat ->
  exists p, pixel_at img i j = Some p.
Proof.
  unfold rectangular, shape0, pixel_at. intros Hrect Hi Hj.
  destruct (nth_error (rows img) i) as [row|] eqn:Hrow.
  - rewrite Forall_forall in Hrect.
    pose proof (Hrect row (nth_error_In _ _ Hrow)) as Hlen.
    destruct (nth_error row j) as [p|] eqn:Hp; [eauto|].
    apply nth_error_None in Hp. lia.
  - apply nth_error_None in Hrow. lia.
Qed.

Lemma sum_mask_all_black (img : ndarray) (t : Z) :
  rectangular img ->
  (forall i j, (i < shape0 img)%nat -> (j < shape1 img)%nat ->
     is_black_at img t i j = true) ->
  NumPy.sum (all_lt_axis2 t img) = Z.of_nat (shape0 img) * Z.of_nat (shape1 img).
Proof.
  intros Hrect Hall.
  assert (Hrows : Forall (Forall (fun p => all_lt t p = true)) (rows img)).
  { apply Forall_forall. intros row Hrow. apply Forall_forall. intros p Hp.
    destruct (In_nth_error _ _ Hrow) as (i & Hi).
    destruct (In_nth_error _ _ Hp) as (j & Hj).
    assert (Hlen : List.length row = shape1 img).
    { unfold rectangular in Hrect. rewrite Forall_forall in Hrect. auto. }
    assert (Hb : is_black_at img t i j = true).
    { apply Hall.
      - unfold shape0. apply nth_error_Some. congruence.
      - rewrite <- Hlen. apply nth_error_Some. congruence. }
    rewrite is_black_at_all_lt in Hb. unfold pixel_at in Hb.
    now rewrite Hi, Hj in Hb. }
  clear Hall. unfold rectangular, shape0, NumPy.sum, all_lt_axis2 in *.
  revert Hrect Hrows. generalize (shape1 img) as w. intros w.
  induction (rows img) as [|row m IH]; intros Hrect Hrows; simpl List.length.
  - reflexivity.
  - inversion Hrect as [|? ? Hlen Hm]; subst.
    inversion Hrows as [|? ? Hrow Hms]; subst.
    specialize (IH Hm Hms). simpl fold_right.
    assert (Hc : count_true (map (all_lt t) row) = List.length row).
    { unfold count_true. clear -Hrow.
      induction Hrow as [|p row Hp _ IHr]; simpl; [reflexivity|].
      rewrite Hp. simpl. now rewrite IHr. }
    rewrite Hc. lia.
Qed.

Lemma detect_all_black (img : ndarray) (t : Z) :
  loaded_image img ->
  (forall i j, (i < shape0 img)%nat -> (j < shape1 img)%nat ->
     is_black_at img t i j = true) ->
  let r := detect_black_areas_array img t in
  has_black r = true /\
  black_pixels r = total_pixels r /\
  black_region r =
    Some {| top := 0; left := 0;
            bottom := Z.of_nat (shape0 img) - 1;
            right := Z.of_nat (shape1 img) - 1 |} /\
  exists q, percentage r = Fin q /\ (q == 100)%Q.
Proof.
  intros (Hrect & H0 & H1) Hall r.
  destruct (detect_black_areas_array_cases img t) as (Hb & Ht & _ & Hc).
  destruct (percentage_finite img t H0 H1) as (Hpos & Hp).
  fold r in Hb, Ht, Hc, Hpos, Hp.
  assert (Hcount : black_pixels r = total_pixels r).
  { rewrite Hb, Ht, <- sum_mask_length. now apply sum_mask_all_black. }
  destruct Hc as [(E & _ & _)|(c0 & cs & _ & Hh & Hr)].
  { rewrite Hb, E in Hcount. simpl in Hcount. lia. }
  split; [exact Hh|]. split; [exact Hcount|]. split.
  - destruct (region_extremes img t _ Hr)
      as (Hin & _ & (i3 & j3 & B3 & E3) & _ & (i4 & j4 & B4 & E4)).
    pose proof (is_black_at_inside _ _ _ _ Hrect B3) as I3.
    pose proof (is_black_at_inside _ _ _ _ Hrect B4) as I4.
    assert (L0 : is_black_at img t 0 0 = true) by (apply Hall; lia).
    assert (G0 : is_black_at img t (shape0 img - 1) (shape1 img - 1) = true)
      by (apply Hall; lia).
    pose proof (Hin _ _ L0) as L. pose proof (Hin _ _ G0) as G.
    rewrite Hr. cbn [top left bottom right] in *. f_equal. f_equal; lia.
  - eexists. split; [exact Hp|]. rewrite Hcount.
    destruct (total_pixels r) as [|p|p]; try lia.
    unfold Qdiv, Qinv, Qmult, Qeq, inject_Z. cbn -[Z.mul].
    rewrite ?Pos2Z.inj_mul. lia.
Qed.

(** X4: An image all of whose pixels are below the threshold: everything is
    counted, the percentage is 100 and the box is the whole image. *)
Theorem all_black_image_fills_the_box (img : ndarray) (t : Z) :
  loaded_image img ->
  (forall i j, (i < shape0 img)%nat -> (j < shape1 img)%nat ->
     is_black_at img t i j = true) ->
  let r := detect_black_areas_array img t in
  has_black r = true /\
  black_pixels r = Z.of_nat (shape0 img) * Z.of_nat (shape1 img) /\
  black_region r =
    Some {| top := 0; left := 0;
            bottom := Z.of_nat (shape0 img) - 1;
            right := Z.of_nat (shape1 img) - 1 |} /\
  exists q, percentage r = Fin q /\ (q == 100)%Q.
Proof.
  intros Hl Hall r.
  destruct (detect_all_black img t Hl Hall) as (Hh & Hc & Hr & Hq).
  destruct (detect_black_areas_array_cases img t) as (_ & Ht & _).
  fold r in Hh, Hc, Hr, Hq, Ht.
  rewrite Hc, Ht. auto.
Qed.

Lemma all_black_image_fills_the_box_witness :
  black_region (detect_black_areas_array (Scenario.solid 6 8 Scenario.black_px) 10)
    = Some {| top := 0; left := 0; bottom := 5; right := 7 |}.
Proof.
  assert (Hl : loaded_image (Scenario.solid 6 8 Scenario.black_px)).
  { split; [repeat constructor | split; vm_compute; lia]. }
  destruct (all_black_image_fills_the_box _ 10 Hl) as (_ & _ & Hr & _).
  - intros i j Hi Hj. vm_compute in Hi, Hj.
    do 6 (destruct i as [|i]; [do 8 (destruct j as [|j]; [reflexivity|]); lia|]).
    lia.
  - exact Hr.
Defined.

(** X5: On 8-bit channels the threshold has two extremes: at 0 or below nothing
    is black; above 255 everything is. *)
Theorem threshold_extremes_on_8_bit_channels (img : ndarray) (t : Z) :
  loaded_image img ->
  (forall i j red green blue,
     pixel_at img i j = Some (red, green, blue) ->
     0 <= red <= 255 /\ 0 <= green <= 255 /\ 0 <= blue <= 255) ->
  let r := detect_black_areas_array img t in
  (t <= 0 ->
     has_black r = false /\ black_pixels r = 0 /\ black_region r = None /\
     exists q, percentage r = Fin q /\ (q == 0)%Q) /\
  (256 <= t ->
     has_black r = true /\ black_pixels r = total_pixels r /\
     black_region r =
       Some {| top := 0; left := 0;
               bottom := Z.of_nat (shape0 img) - 1;
               right := Z.of_nat (shape1 img) - 1 |}).
Proof.
  intros Hl Hu8 r. split.
  - intros Ht.
    destruct Hl as (Hrect & H0 & H1).
    destruct (detect_black_areas_array_cases img t) as (Hb & _ & _ & Hc).
    destruct (percentage_finite img t H0 H1) as (Hpos & Hp).
    fold r in Hb, Hc, Hpos, Hp.
    destruct Hc as [(E & Hh & Hr)|(c0 & cs & E & _ & _)].
    + assert (Hz : black_pixels r = 0) by (rewrite Hb, E; reflexivity).
      repeat split; auto.
      eexists. split; [exact Hp|]. rewrite Hz.
      destruct (total_pixels r) as [|p|p]; try lia.
      unfold Qdiv, Qinv, Qmult, Qeq, inject_Z. cbn -[Z.mul]. lia.
    + exfalso. destruct c0 as [i j].
      assert (B : is_black_at img t i j = true).
      { apply In_argwhere_mask. rewrite E. left. reflexivity. }
      rewrite is_black_at_all_lt in B.
      destruct (pixel_at img i j) as [[[red green] blue]|] eqn:Hp'; [|discriminate].
      apply all_lt_spec in B. specialize (Hu8 _ _ _ _ _ Hp'). lia.
  - intros Ht.
    destruct (detect_all_black img t Hl) as (Hh & Hc & Hr & _).
    + intros i j Hi Hj. destruct Hl as (Hrect & _).
      destruct (pixel_at_inside img i j Hrect Hi Hj) as ([[red green] blue] & Hp).
      rewrite is_black_at_all_lt, Hp. apply all_lt_spec.
      specialize (Hu8 _ _ _ _ _ Hp). lia.
    + auto.
Qed.

Lemma threshold_extremes_on_8_bit_channels_witness :
  has_black (detect_black_areas_array (Scenario.solid 2 2 Scenario.black_px) 0) = false /\
  has_black (detect_black_areas_array (Scenario.solid 2 2 Scenario.white_px) 256) = true.
Proof.
  assert (Hl : forall p, loaded_image (Scenario.solid 2 2 p)).
  { intros p. split; [repeat constructor | split; vm_compute; lia]. }
  assert (Hu : forall p, p = Scenario.black_px \/ p = Scenario.white_px ->
             forall i j red green blue,
               pixel_at (Scenario.solid 2 2 p) i j = Some (red, green, blue) ->
               0 <= red <= 255 /\ 0 <= green <= 255 /\ 0 <= blue <= 255).
  { intros p Hp i j red green blue H.
    destruct i as [|[|[|i]]], j as [|[|[|j]]];
      destruct Hp; subst p; vm_compute in H; inversion H; subst; lia. }
  split.
  - destruct (threshold_extremes_on_8_bit_channels _ 0 (Hl Scenario.black_px)
                (Hu _ (or_introl eq_refl))) as [H _].
    apply H. lia.
  - destruct (threshold_extremes_on_8_bit_channels _ 256 (Hl Scenario.white_px)
                (Hu _ (or_intror eq_refl))) as [_ H].
    apply H. lia.
Defined.

(* ================================================================== *)
(** ** Further properties of a run: the loop *)

Lemma analyze_screenshot_unopened (w : world) (issues : list issue) (s : string) :
  open_image w (Py.path_join screenshot_dir s) = None ->
  analyze_screenshot w issues s =
    ([L_analyzing s], Raise (CannotOpenImage (Py.path_join screenshot_dir s))).
Proof.
  intros H. unfold analyze_screenshot, detect_black_areas. rewrite H. reflexivity.
Qed.

Lemma analyze_screenshot_opened (w : world) (issues : list issue) (s : string) :
  opens w s ->
  exists out,
    analyze_screenshot w issues s
      = (L_analyzing s :: out, Return (issues ++ recorded w s)) /\
    Forall (fun l => is_status_line l = true) out.
Proof.
  unfold opens, recorded, analyze_screenshot, detect_black_areas, analyze_ui_regions.
  destruct (open_image w (Py.path_join screenshot_dir s)) as [img|];
    [intros _ | congruence].
  destruct (detect_black_areas_array_cases img default_black_threshold)
    as (_ & _ & _ & Hc). cbv zeta in Hc |- *.
  remember (detect_black_areas_array img default_black_threshold) as r.
  destruct Hc as [(_ & Hh & Hr)|(c0 & cs & _ & Hh & Hr)].
  - cbn -[game_area_black]. rewrite Hh, Hr. cbn. rewrite app_nil_r.
    eexists. split; [reflexivity|]. repeat constructor.
  - cbn -[game_area_black]. rewrite Hh, Hr.
    match goal with
    | |- context [game_area_black ?b ?u] => destruct (game_area_black b u)
    end; cbn; rewrite ?app_nil_r; eexists; (split; [reflexivity|]);
      repeat constructor.
Qed.

Lemma scan_lines_of_status (out : list line) :
  Forall (fun l => is_status_line l = true) out ->
  Forall (fun l => is_scan_line l = true) out.
Proof.
  apply Forall_impl. intros l H. destruct l; try discriminate; reflexivity.
Qed.

(** When every image opens, the loop runs through and appends what each
    screenshot records, in order. *)
Lemma for_each_all_open (w : world) (l : list string) (issues : list issue) :
  Forall (opens w) l ->
  exists out,
    for_each l issues (analyze_screenshot w)
      = (out, Return (issues ++ flat_map (recorded w) l)) /\
    Forall (fun x => is_scan_line x = true) out /\
    analyzed out = l.
Proof.
  intros Hall. revert issues.
  induction Hall as [|s l Hs Hl IH]; intros issues.
  - exists []. cbn. rewrite app_nil_r. repeat split. constructor.
  - destruct (analyze_screenshot_opened w issues s Hs) as (out1 & Heq & Hst).
    destruct (IH (issues ++ recorded w s)) as (out2 & Heq2 & Hsc & Han).
    exists (L_analyzing s :: out1 ++ out2).
    cbn [for_each flat_map]. rewrite Heq. cbn [bind]. rewrite Heq2.
    rewrite app_assoc. split; [reflexivity|]. split.
    + constructor; [reflexivity|].
      apply Forall_app. split; [now apply scan_lines_of_status | exact Hsc].
    + destruct (status_lines_silent _ Hst) as [Ha _].
      cbn. rewrite analyzed_app, Ha, Han. reflexivity.
Qed.

(** The loop stops at the first screenshot whose image does not open. *)
Lemma for_each_first_failure (w : world) (pre : list string) (s : string)
  (post : list string) (issues : list issue) :
  Forall (opens w) pre ->
  open_image w (Py.path_join screenshot_dir s) = None ->
  exists out,
    for_each (pre ++ s :: post) issues (analyze_screenshot w)
      = (out, Raise (CannotOpenImage (Py.path_join screenshot_dir s))) /\
    Forall (fun x => is_scan_line x = true) out /\
    analyzed out = pre ++ [s].
Proof.
  intros Hall Hs. revert issues.
  induction Hall as [|s' l Hs' Hl IH]; intros issues.
  - exists [L_analyzing s]. cbn [app for_each].
    rewrite (analyze_screenshot_unopened w issues s Hs). cbn.
    repeat split. repeat constructor.
  - destruct (analyze_screenshot_opened w issues s' Hs') as (out1 & Heq & Hst).
    destruct (IH (issues ++ recorded w s')) as (out2 & Heq2 & Hsc & Han).
    exists (L_analyzing s' :: out1 ++ out2).
    cbn [app for_each]. rewrite Heq. cbn [bind]. rewrite Heq2.
    split; [reflexivity|]. split.
    + constructor; [reflexivity|].
      apply Forall_app. split; [now apply scan_lines_of_status | exact Hsc].
    + destruct (status_lines_silent _ Hst) as [Ha _].
      cbn. rewrite analyzed_app, Ha, Han. reflexivity.
Qed.

Lemma first_unopened_split (w : world) (l : list string) :
  Forall (opens w) l \/
  exists pre s post,
    l = pre ++ s :: post /\ Forall (opens w) pre /\
    open_image w (Py.path_join screenshot_dir s) = None.
Proof.
  induction l as [|s l IH]; [left; constructor|].
  destruct (open_image w (Py.path_join screenshot_dir s)) as [img|] eqn:Hs.
  - assert (Ho : opens w s) by (unfold opens; congruence).
    destruct IH as [Hall|(pre & s' & post & -> & Hpre & Hs')].
    + left. now constructor.
    + right. exists (s :: pre), s', post. repeat split; auto.
  - right. exists [], s, l. repeat split; auto.
Qed.

Lemma scan_lines_silent (out : list line) :
  Forall (fun l => is_scan_line l = true) out ->
  pattern_report out = [] /\ ranked_report out = [] /\ verdict_report out = [] /\
  ~ In L_summary out.
Proof.
  induction 1 as [|l out Hl _ (IH1 & IH2 & IH3 & IH4)];
    [repeat split; auto|].
  destruct l; try discriminate; cbn; repeat split; auto;
    intros [H|H]; try discriminate; auto.
Qed.

Lemma print_ranked_lines (i : nat) (l : list issue) :
  print_ranked i l =
    (flat_map (fun p => [L_ranked (fst p + 1) (file (snd p))
                                  (black_percentage (snd p));
                         L_ranked_region (region (snd p))])
              (combine (seq i (List.length l)) l),
     Return tt).
Proof.
  revert i. induction l as [|x l IH]; intros i; [reflexivity|].
  cbn [print_ranked bind print]. rewrite IH. reflexivity.
Qed.

Lemma combine_seq_firstn {A} (i n : nat) (l : list A) :
  combine (seq i (List.length (firstn n l))) (firstn n l) = combine (seq i n) l.
Proof.
  revert i l. induction n as [|n IH]; intros i l; [reflexivity|].
  destruct l as [|x l]; [reflexivity|]. cbn. now rewrite IH.
Qed.

Lemma ranked_report_app (a b : list line) :
  ranked_report (a ++ b) = ranked_report a ++ ranked_report b.
Proof. apply filter_app. Qed.

Lemma verdict_report_app (a b : list line) :
  verdict_report (a ++ b) = verdict_report a ++ verdict_report b.
Proof. apply filter_app. Qed.

Lemma ranked_lines_report {A} (f : A -> line) (g : A -> line) (l : list A) :
  (forall a, exists k s p, f a = L_ranked k s p) ->
  (forall a, exists b, g a = L_ranked_region b) ->
  ranked_report (flat_map (fun a => [f a; g a]) l) = map f l /\
  verdict_report (flat_map (fun a => [f a; g a]) l) = [] /\
  pattern_report (flat_map (fun a => [f a; g a]) l) = [].
Proof.
  intros Hf Hg. induction l as [|a l (IH1 & IH2 & IH3)]; [repeat split|].
  destruct (Hf a) as (k & s & p & Ef), (Hg a) as (b & Eg).
  cbn. rewrite Ef, Eg. cbn. rewrite <- Ef.
  fold (ranked_report (flat_map (fun a => [f a; g a]) l)).
  fold (verdict_report (flat_map (fun a => [f a; g a]) l)).
  fold (pattern_report (flat_map (fun a => [f a; g a]) l)).
  rewrite IH1, IH2, IH3. repeat split.
Qed.

(** The printed lines of a run that reaches the summary, in full. *)
Lemma main_issues_found_stdout (w : world) (names : list string)
  (out : list line) (collected : list issue) :
  listdir w = Some names ->
  screenshots_of names <> [] ->
  for_each (screenshots_of names) [] (analyze_screenshot w) = (out, Return collected) ->
  let final := sort_issues collected in
  main_issues_found w =
    (L_analyzing_count (List.length (screenshots_of names)) :: out ++
     L_rule :: L_summary :: L_rule ::
     (if is_empty collected then [L_success; L_coverage_ok]
      else
        L_issues_found (List.length collected) :: L_most_problematic ::
        fst (print_ranked 0 (firstn 5 final)) ++
        [L_missing_coverage; L_culling_advice_1; L_culling_advice_2] ++
        (if is_empty (edge_issues final) then []
         else [L_edge_issues (List.length (edge_issues final))]) ++
        (if is_empty (zoom_issues final) then []
         else [L_zoom_issues (List.length (zoom_issues final))])),
     Return final).
Proof.
  intros Hdir Hne Hloop final.
  unfold main_issues_found. rewrite Hdir. cbv zeta.
  destruct (screenshots_of names) as [|s l] eqn:Hs; [congruence|].
  cbn [is_empty]. rewrite Hloop.
  destruct collected as [|i c]; [reflexivity|].
  cbn [is_empty negb bind print].
  change (sort_issues (i :: c)) with final.
  rewrite print_ranked_lines. cbn [bind print fst].
  destruct (is_empty (edge_issues final)), (is_empty (zoom_issues final));
    cbn [bind print ret app]; rewrite ?app_nil_r; reflexivity.
Qed.

Lemma loop_dichotomy (w : world) (l : list string) :
  (Forall (opens w) l /\
   exists out,
     for_each l [] (analyze_screenshot w)
       = (out, Return (flat_map (recorded w) l)) /\
     Forall (fun x => is_scan_line x = true) out /\
     analyzed out = l) \/
  (exists pre s post out,
     l = pre ++ s :: post /\ Forall (opens w) pre /\
     open_image w (Py.path_join screenshot_dir s) = None /\
     for_each l [] (analyze_screenshot w)
       = (out, Raise (CannotOpenImage (Py.path_join screenshot_dir s))) /\
     Forall (fun x => is_scan_line x = true) out /\
     analyzed out = pre ++ [s]).
Proof.
  destruct (first_unopened_split w l) as [Hall|(pre & s & post & -> & Hpre & Hs)].
  - left. split; [exact Hall|]. apply (for_each_all_open w l [] Hall).
  - right. destruct (for_each_first_failure w pre s post [] Hpre Hs)
      as (out & H1 & H2 & H3).
    exists pre, s, post, out. repeat split; auto.
Qed.

(** The three ways [main] ends before its [return], and the one way it
    reaches it. *)
Lemma main_issues_found_outcomes (w : world) :
  (listdir w = None /\
   main_issues_found w
     = ([L_dir_not_found screenshot_dir; L_run_cargo], SystemExit 1)) \/
  (exists names,
     listdir w = Some names /\ screenshots_of names = [] /\
     main_issues_found w = ([L_no_screenshots], SystemExit 1)) \/
  (exists names pre s post out,
     listdir w = Some names /\
     screenshots_of names = pre ++ s :: post /\ Forall (opens w) pre /\
     open_image w (Py.path_join screenshot_dir s) = None /\
     Forall (fun x => is_scan_line x = true) out /\
     analyzed out = pre ++ [s] /\
     main_issues_found w
       = (L_analyzing_count (List.length (screenshots_of names)) :: out,
          Raise (CannotOpenImage (Py.path_join screenshot_dir s)))) \/
  (exists names out,
     listdir w = Some names /\ screenshots_of names <> [] /\
     Forall (opens w) (screenshots_of names) /\
     for_each (screenshots_of names) [] (analyze_screenshot w)
       = (out, Return (flat_map (recorded w) (screenshots_of names))) /\
     Forall (fun x => is_scan_line x = true) out /\
     analyzed out = screenshots_of names /\
     result (main_issues_found w)
       = Return (sort_issues (flat_map (recorded w) (screenshots_of names)))).
Proof.
  destruct (listdir w) as [names|] eqn:Hdir;
    [|left; split; [reflexivity | now apply main_issues_found_no_directory]].
  right.
  destruct (list_eq_dec string_dec (screenshots_of names) []) as [Hs|Hs].
  { left. exists names. repeat split; auto.
    now apply main_issues_found_no_screenshots with names. }
  right.
  destruct (loop_dichotomy w (screenshots_of names))
    as [(Hall & out & Hloop & Hsc & Han)
       |(pre & s & post & out & Hl & Hpre & Hno & Hloop & Hsc & Han)].
  - right. exists names, out. repeat split; auto.
    now rewrite (main_issues_found_stdout w names out _ Hdir Hs Hloop).
  - left. exists names, pre, s, post, out. repeat split; auto.
    now apply main_issues_found_aborted.
Qed.

Lemma main_issues_found_returns_recorded (w : world) (final : list issue) :
  result (main_issues_found w) = Return final ->
  exists names out,
    listdir w = Some names /\ screenshots_of names <> [] /\
    Forall (opens w) (screenshots_of names) /\
    for_each (screenshots_of names) [] (analyze_screenshot w)
      = (out, Return (flat_map (recorded w) (screenshots_of names))) /\
    Forall (fun x => is_scan_line x = true) out /\
    final = sort_issues (flat_map (recorded w) (screenshots_of names)).
Proof.
  intros Hres.
  destruct (main_issues_found_outcomes w)
    as [(_ & H)|[(names & _ & _ & H)
       |[(names & pre & s & post & out & _ & _ & _ & _ & _ & _ & H)
        |(names & out & Hdir & Hne & Hall & Hloop & Hsc & _ & H)]]];
    try (rewrite H in Hres; discriminate).
  rewrite H in Hres. inversion Hres. exists names, out. repeat split; auto.
Qed.

Lemma recorded_spec (w : world) (s : string) (i : issue) :
  In i (recorded w s) <->
  exists img b,
    open_image w (Py.path_join screenshot_dir s) = Some img /\
    black_region (detect_black_areas_array img default_black_threshold) = Some b /\
    bottom b > 60 /\ right b > 200 /\
    i = {| file := s;
           black_percentage :=
             percentage (detect_black_areas_array img default_black_threshold);
           region := b;
           severity := "HIGH" |}.
Proof.
  unfold recorded.
  destruct (open_image w (Py.path_join screenshot_dir s)) as [img|] eqn:Hopen;
    [|split; [intros [] | intros (img' & b' & E1 & _); discriminate]].
  cbv zeta.
  destruct (black_region (detect_black_areas_array img default_black_threshold))
    as [b|] eqn:Hreg.
  - rewrite game_area_black_spec. split.
    + destruct (Z.ltb_spec 60 (bottom b)), (Z.ltb_spec 200 (right b));
        cbn [andb]; intros Hin; cbn in Hin; try contradiction.
      destruct Hin as [<-|[]]. exists img, b. repeat split; auto; lia.
    + intros (img' & b' & E1 & E2 & H1 & H2 & ->).
      inversion E1; subst img'. rewrite Hreg in E2. inversion E2; subst b'.
      destruct (Z.ltb_spec 60 (bottom b)), (Z.ltb_spec 200 (right b));
        cbn [andb]; try lia.
      left. reflexivity.
  - split; [intros []|]. intros (img' & b' & E1 & E2 & _).
    inversion E1; subst img'. rewrite Hreg in E2. discriminate.
Qed.

(* ================================================================== *)
(** ** Further properties of a run: failures *)





(* ================================================================== *)
(** ** Further properties of a run: the issues *)

(** X8: The final list holds exactly one issue for each flagged screenshot: an
    issue is in it if and only if it is the record, with severity HIGH, of
    a screenshot whose black box reaches below row 60 and right of column
    200, with the percentage and the box computed for that screenshot. *)
Theorem issues_are_exactly_the_flagged_screenshots (w : world) (final : list issue) :
  result (main_issues_found w) = Return final ->
  exists names,
    listdir w = Some names /\
    forall i,
      In i final <->
      exists s img b,
        In s (screenshots_of names) /\
        open_image w (Py.path_join screenshot_dir s) = Some img /\
        black_region (detect_black_areas_array img default_black_threshold)
          = Some b /\
        bottom b > 60 /\ right b > 200 /\
        i = {| file := s;
               black_percentage :=
                 percentage (detect_black_areas_array img default_black_threshold);
               region := b;
               severity := "HIGH" |}.
Proof.
  intros Hres.
  destruct (main_issues_found_returns_recorded w final Hres)
    as (names & out & Hdir & _ & _ & _ & _ & ->).
  exists names. split; [exact Hdir|]. intros i.
  assert (Hperm : In i (sort_issues (flat_map (recorded w) (screenshots_of names)))
                  <-> In i (flat_map (recorded w) (screenshots_of names))).
  { split; apply Permutation_in;
      [apply Permutation_sym|]; apply sort_reverse_perm. }
  rewrite Hperm, in_flat_map. split.
  - intros (s & Hs & Hi). apply recorded_spec in Hi.
    destruct Hi as (img & b & H). exists s, img, b. tauto.
  - intros (s & img & b & Hs & H). exists s. split; [exact Hs|].
    apply recorded_spec. exists img, b. exact H.
Qed.

Lemma issues_are_exactly_the_flagged_screenshots_witness :
  exists final names,
    result (main_issues_found Scenario.tiles) = Return final /\
    listdir Scenario.tiles = Some names /\
    (exists i, In i final /\ file i = "edge_north.png"%string).
Proof.
  assert (Hrun : exists final,
             result (main_issues_found Scenario.tiles) = Return final).
  { vm_compute. eexists. reflexivity. }
  destruct Hrun as (final & Hres).
  destruct (issues_are_exactly_the_flagged_screenshots Scenario.tiles final Hres)
    as (names & Hdir & Hiff).
  exists final, names. split; [exact Hres|]. split; [exact Hdir|].
  eexists. split.
  - apply Hiff.
    exists "edge_north.png"%string, (Scenario.solid 62 202 Scenario.black_px),
      {| top := 0; left := 0; bottom := 61; right := 201 |}.
    assert (Hn : names = Scenario.names).
    { cbn in Hdir. inversion Hdir. reflexivity. }
    subst names.
    split; [vm_compute; auto|]. split; [reflexivity|].
    split; [vm_compute; reflexivity|].
    split; [reflexivity|]. split; [reflexivity|]. reflexivity.
  - reflexivity.
Defined.

Lemma subseq_length {A} (l m : list A) :
  subseq l m -> (List.length l <= List.length m)%nat.
Proof. induction 1; simpl; lia. Qed.

Lemma subseq_In {A} (l m : list A) (x : A) : subseq l m -> In x l -> In x m.
Proof.
  induction 1 as [|y l m Hs IH|y l m Hs IH]; simpl; intros H; auto.
  destruct H; auto.
Qed.

Lemma subseq_NoDup {A} (l m : list A) : subseq l m -> NoDup m -> NoDup l.
Proof.
  induction 1 as [|y l m Hs IH|y l m Hs IH]; intros Hm; auto;
    inversion Hm; subst; auto.
  constructor; auto. intros Hin. eauto using subseq_In.
Qed.

(** X9: There is at most one issue per screenshot: the final list is no longer
    than the list of [.png] names, and when the directory listing has no
    repeated name no file is reported twice. *)
Theorem at_most_one_issue_per_screenshot (w : world) (names : list string)
  (final : list issue) :
  listdir w = Some names ->
  result (main_issues_found w) = Return final ->
  (List.length final
   <= List.length (filter (fun f => Py.endswith f ".png") names))%nat /\
  (forall i, In i final -> In (file i) names /\ Py.endswith (file i) ".png" = true) /\
  (NoDup names -> NoDup (map file final)).
Proof.
  intros Hdir Hres.
  destruct (main_issues_found_returns w final Hres)
    as (names' & out & collected & tail & Hdir' & _ & _ & _ & Hsub & _ & -> & _).
  assert (names' = names) by congruence. subst names'.
  pose proof (sort_reverse_perm black_percentage flt collected) as Hperm.
  fold (sort_issues collected) in Hperm.
  pose proof (screenshots_of_perm names) as Hshots.
  split.
  { rewrite <- (Permutation_length Hperm), (Permutation_length Hshots).
    rewrite <- (length_map file collected). now apply subseq_length. }
  split.
  { intros i Hi.
    apply (Permutation_in _ (Permutation_sym Hperm)) in Hi.
    apply (in_map file) in Hi. apply (subseq_In _ _ _ Hsub) in Hi.
    apply (Permutation_in _ (Permutation_sym Hshots)) in Hi.
    apply filter_In in Hi. exact Hi. }
  intros Hnd.
  apply (Permutation_NoDup (Permutation_map file Hperm)).
  apply (subseq_NoDup _ _ Hsub).
  apply (Permutation_NoDup Hshots). now apply NoDup_filter.
Qed.

Lemma at_most_one_issue_per_screenshot_witness :
  exists final,
    result (main_issues_found Scenario.tiles) = Return final /\
    (List.length final <= 4)%nat /\ NoDup (map file final).
Proof.
  assert (Hrun : exists final,
             result (main_issues_found Scenario.tiles) = Return final).
  { vm_compute. eexists. reflexivity. }
  destruct Hrun as (final & Hres).
  destruct (at_most_one_issue_per_screenshot
              Scenario.tiles Scenario.names final eq_refl Hres)
    as (Hlen & _ & Hnd).
  exists final. split; [exact Hres|]. split; [exact Hlen|].
  apply Hnd. unfold Scenario.names.
  repeat (constructor; [cbn; intuition discriminate|]). constructor.
Defined.

(** X10: When the images are rectangular, every reported percentage is a number
    above 0 and at most 100. *)
Theorem reported_percentages_are_positive (w : world) (final : list issue) :
  (forall p img, open_image w p = Some img -> rectangular img) ->
  result (main_issues_found w) = Return final ->
  forall i, In i final ->
    exists q, black_percentage i = Fin q /\ (0 < q)%Q /\ (q <= 100)%Q.
Proof.
  intros Hrect Hres i Hi.
  destruct (main_issues_found_returns_recorded w final Hres)
    as (names & out & _ & _ & _ & _ & _ & ->).
  apply (Permutation_in _ (Permutation_sym
           (sort_reverse_perm black_percentage flt _))) in Hi.
  apply in_flat_map in Hi. destruct Hi as (s & _ & Hi).
  apply recorded_spec in Hi.
  destruct Hi as (img & b & Hopen & Hreg & _ & _ & ->). cbn [black_percentage].
  specialize (Hrect _ _ Hopen).
  destruct (region_extremes img _ b Hreg) as (_ & (i1 & j1 & B1 & _) & _).
  destruct (is_black_at_inside _ _ _ _ Hrect B1) as (I0 & I1).
  destruct (percentage_finite img default_black_threshold) as (Hpos & Hp);
    [lia | lia |].
  destruct (detect_black_areas_array_cases img default_black_threshold)
    as (Hb & Ht & _ & Hc).
  set (r := detect_black_areas_array img default_black_threshold) in *.
  assert (Hcount : 0 < black_pixels r <= total_pixels r).
  { split.
    - destruct Hc as [(_ & _ & Hn)|(c0 & cs & E & _)]; [congruence|].
      rewrite Hb, E. simpl List.length. lia.
    - rewrite Hb, Ht, <- sum_mask_length. now apply sum_mask_le_total. }
  destruct (percentage_bounds (black_pixels r) (total_pixels r))
    as (Q0 & Q100 & Qz & _); [lia | lia |].
  eexists. split; [exact Hp|]. split; [|exact Q100].
  apply Qle_lt_or_eq in Q0. destruct Q0 as [Hlt|Heq]; [exact Hlt|].
  symmetry in Heq. apply Qz in Heq. lia.
Qed.

Lemma reported_percentages_are_positive_witness :
  exists final,
    result (main_issues_found Scenario.tiles) = Return final /\
    Forall (fun i => exists q, black_percentage i = Fin q /\ (0 < q)%Q /\ (q <= 100)%Q)
           final.
Proof.
  assert (Hrun : exists final,
             result (main_issues_found Scenario.tiles) = Return final).
  { vm_compute. eexists. reflexivity. }
  destruct Hrun as (final & Hres).
  exists final. split; [exact Hres|]. apply Forall_forall.
  apply (reported_percentages_are_positive Scenario.tiles final); [|exact Hres].
  intros p img Hopen. cbn in Hopen.
  assert (Hsolid : forall h wd px, rectangular (Scenario.solid h wd px)).
  { intros h wd px. apply Forall_forall. intros r Hr.
    apply repeat_spec in Hr. subst r. apply repeat_length. }
  repeat match type of Hopen with
         | (if ?c then _ else _) = _ => destruct c
         end; inversion Hopen; subst; try apply Hsolid.
  apply Forall_forall. intros r Hr. cbn [rows Scenario.black_last_row] in Hr.
  apply in_app_or in Hr. destruct Hr as [Hr|[<-|[]]].
  - apply repeat_spec in Hr. subst r. apply repeat_length.
  - apply repeat_length.
Defined.

(* ================================================================== *)
(** ** Further properties of a run: the summary and the exit status *)

Lemma main_issues_found_reports (w : world) (final : list issue) :
  result (main_issues_found w) = Return final ->
  ranked_report (stdout (main_issues_found w)) =
    map (fun p => L_ranked (fst p + 1) (file (snd p)) (black_percentage (snd p)))
        (combine (seq 0 5) final) /\
  verdict_report (stdout (main_issues_found w)) =
    (if is_empty final then [L_success]
     else [L_issues_found (List.length final)]).
Proof.
  intros Hres.
  destruct (main_issues_found_returns_recorded w final Hres)
    as (names & out & Hdir & Hne & _ & Hloop & Hsc & Hfinal).
  destruct (scan_lines_silent _ Hsc) as (_ & Hr & Hv & _).
  rewrite (main_issues_found_stdout w names out _ Hdir Hne Hloop).
  cbv zeta. rewrite <- Hfinal. cbn [stdout fst].
  assert (Hlen : List.length (flat_map (recorded w) (screenshots_of names))
                 = List.length final).
  { rewrite Hfinal. apply Permutation_length, sort_reverse_perm. }
  assert (Hempty : is_empty (flat_map (recorded w) (screenshots_of names))
                   = is_empty final).
  { destruct (flat_map (recorded w) (screenshots_of names)), final;
      try reflexivity; discriminate. }
  rewrite Hempty, Hlen.
  unfold ranked_report, verdict_report in *.
  cbn [filter]. rewrite !filter_app, Hr, Hv. cbn [app filter].
  destruct (is_empty final) eqn:Hf.
  { destruct final; [split; reflexivity | discriminate]. }
  cbn [app filter].
  rewrite print_ranked_lines, combine_seq_firstn. cbn [fst].
  destruct (ranked_lines_report
              (fun p : nat * issue =>
                 L_ranked (fst p + 1) (file (snd p)) (black_percentage (snd p)))
              (fun p : nat * issue => L_ranked_region (region (snd p)))
              (combine (seq 0 5) final)) as (R1 & R2 & _);
    [intros a; eauto | intros a; eauto |].
  unfold ranked_report, verdict_report in R1, R2.
  rewrite !filter_app, R1, R2.
  destruct (is_empty (edge_issues final)), (is_empty (zoom_issues final));
    cbn [app filter]; rewrite ?app_nil_r; split; reflexivity.
Qed.

(** X11: The summary ranks at most the first five issues of the sorted list, in
    that order, numbered from 1. *)
Theorem summary_ranks_the_first_five (w : world) (final : list issue) :
  result (main_issues_found w) = Return final ->
  ranked_report (stdout (main_issues_found w)) =
    map (fun p => L_ranked (fst p + 1) (file (snd p)) (black_percentage (snd p)))
        (combine (seq 0 5) final) /\
  List.length (ranked_report (stdout (main_issues_found w)))
    = Nat.min 5 (List.length final).
Proof.
  intros Hres.
  destruct (main_issues_found_reports w final Hres) as (Hr & _).
  split; [exact Hr|].
  rewrite Hr, length_map, length_combine, length_seq. reflexivity.
Qed.

Lemma summary_ranks_the_first_five_witness :
  List.length (ranked_report (stdout (main_issues_found Scenario.tiles))) = 3%nat.
Proof.
  assert (Hrun : exists final,
             result (main_issues_found Scenario.tiles) = Return final /\
             List.length final = 3%nat).
  { vm_compute. eexists. split; reflexivity. }
  destruct Hrun as (final & Hres & Hlen3).
  destruct (summary_ranks_the_first_five Scenario.tiles final Hres) as (_ & Hlen).
  rewrite Hlen, Hlen3. reflexivity.
Defined.

(** X12: The line that announces the verdict agrees with the value returned:
    the success line when [main] returns [True], otherwise the number of
    issues, and never both. *)
Theorem printed_verdict_matches_return (w : world) (success : bool) :
  result (main w) = Return success ->
  exists final,
    result (main_issues_found w) = Return final /\
    success = is_empty final /\
    verdict_report (stdout (main w)) =
      (if success then [L_success]
       else [L_issues_found (List.length final)]).
Proof.
  intros Hmain. unfold main in *.
  destruct (main_issues_found w) as [out [final|c|e]] eqn:Hrun;
    try discriminate.
  cbn in Hmain. inversion Hmain; subst success; clear Hmain.
  exists final. split; [reflexivity|].
  assert (Hres : result (main_issues_found w) = Return final)
    by (rewrite Hrun; reflexivity).
  destruct (main_issues_found_reports w final Hres) as (_ & Hv).
  rewrite Hrun in Hv. cbn [stdout fst] in Hv.
  cbn [bind ret stdout fst]. rewrite app_nil_r, Hv.
  destruct final; split; reflexivity.
Qed.

Lemma printed_verdict_matches_return_witness :
  verdict_report (stdout (main Scenario.clean)) = [L_success] /\
  exists final,
    result (main_issues_found Scenario.clean) = Return final /\
    true = is_empty final.
Proof.
  destruct (printed_verdict_matches_return Scenario.clean true)
    as (final & Hres & He & Hv).
  - vm_compute. reflexivity.
  - split; [exact Hv|]. exists final. split; assumption.
Defined.



(* ================================================================== *)
(** ** Which files are screenshots *)

Section Suffix.
Local Open Scope string_scope.

Lemma string_length_app (a b : string) :
  String.length (a ++ b) = (String.length a + String.length b)%nat.
Proof. induction a as [|c a IH]; simpl; congruence. Qed.

Lemma substring_whole (s : string) : substring 0 (String.length s) s = s.
Proof. induction s as [|c s IH]; simpl; congruence. Qed.

Lemma substring_after (a b : string) (m : nat) :
  substring (String.length a) m (a ++ b) = substring 0 m b.
Proof. induction a as [|c a IH]; simpl; auto. Qed.

Lemma substring_tail (s : string) (n : nat) :
  (n <= String.length s)%nat ->
  exists a, s = a ++ substring n (String.length s - n) s.
Proof.
  revert s. induction n as [|n IH]; intros s Hn.
  - exists "". rewrite Nat.sub_0_r, substring_whole. reflexivity.
  - destruct s as [|c s]; simpl in Hn; [lia|].
    destruct (IH s ltac:(lia)) as (a & Ha).
    exists (String c a). simpl. congruence.
Qed.

Lemma endswith_app (s suf : string) :
  Py.endswith s suf = true <-> exists stem, s = stem ++ suf.
Proof.
  unfold Py.endswith. rewrite andb_true_iff, Nat.leb_le, String.eqb_eq. split.
  - intros [Hle Heq].
    destruct (substring_tail s (String.length s - String.length suf) ltac:(lia))
      as (a & Ha).
    replace (String.length s - (String.length s - String.length suf))%nat
      with (String.length suf) in Ha by lia.
    rewrite Heq in Ha. eauto.
  - intros (stem & ->). rewrite string_length_app. split; [lia|].
    replace (String.length stem + String.length suf - String.length suf)%nat
      with (String.length stem) by lia.
    now rewrite substring_after, substring_whole.
Qed.
End Suffix.

(** X14: The screenshots are the names of the listing that end in [.png],
    letter case included, each as often as it is listed; a name that is
    only [.png] counts, a name in [.PNG] does not. *)
Theorem screenshots_are_the_names_ending_in_png (names : list string) :
  (forall s, In s (screenshots_of names) <->
             In s names /\ exists stem, s = (stem ++ ".png")%string) /\
  (forall s, count_occ string_dec (screenshots_of names) s =
             if Py.endswith s ".png" then count_occ string_dec names s else 0%nat) /\
  In ".png"%string (screenshots_of (".png"%string :: names)) /\
  ~ In "A.PNG"%string (screenshots_of names).
Proof.
  assert (Hin : forall l s, In s (screenshots_of l) <->
                            In s l /\ exists stem, s = (stem ++ ".png")%string).
  { intros l s. rewrite <- endswith_app. split; intros H.
    - apply (Permutation_in _ (Permutation_sym (screenshots_of_perm l))) in H.
      apply filter_In in H. exact H.
    - apply (Permutation_in _ (screenshots_of_perm l)).
      apply filter_In. exact H. }
  split; [apply Hin|]. split.
  - intros s.
    rewrite <- (proj1 (Permutation_count_occ string_dec _ _)
                      (screenshots_of_perm names) s).
    induction names as [|n l IH]; cbn [filter count_occ].
    + now destruct (Py.endswith s ".png").
    + destruct (Py.endswith n ".png") eqn:En; cbn [count_occ];
        destruct (string_dec n s) as [->|Hne]; rewrite IH;
        try rewrite En; destruct (Py.endswith s ".png"); reflexivity.
  - split.
    + apply Hin. split; [now left | exists ""%string; reflexivity].
    + intros H. apply Hin in H. destruct H as (_ & stem & H).
      apply (f_equal (fun x => Py.endswith x ".png")) in H.
      rewrite (proj2 (endswith_app (stem ++ ".png") ".png")) in H by eauto.
      vm_compute in H. discriminate.
Qed.
